(** * Import rewriter: [rewriteImports] and its rule table

    A shallow embedding of the two versions of [rewriteImports] found in
    the repository (the earlier one, without insertion logic, lives in
    [Module V1]; the later one is at top level), of the rule table
    [updatedLocationOf] and of the text patching they perform.

    The TypeScript compiler API is an external collaborator.  Its syntax
    tree is modelled by the inductive [Node] below, restricted to the node
    kinds and fields the rewriter inspects; the parser itself
    ([ts.createSourceFile]) is a parameter of [rewriteImports].

    Source texts are strings of 8-bit characters and offsets into them are
    natural numbers.  The only subtraction on offsets, [getEnd() - 1],
    feeds [substring], which clamps a negative argument to [0]; the
    truncated subtraction of [nat] gives the same text. *)

From Stdlib Require Import String Ascii List Arith ZArith Bool Lia Sorted Permutation.
Import ListNotations.
Open Scope string_scope.

(** ** JavaScript string primitives used by the rewriter *)

Module JS.

(** The first [n] characters of [s] (all of [s] when it is shorter). *)
Fixpoint take (n : nat) (s : string) : string :=
  match n, s with
  | S n', String c s' => String c (take n' s')
  | _, _ => EmptyString
  end.

(** [s] without its first [n] characters. *)
Fixpoint drop (n : nat) (s : string) : string :=
  match n, s with
  | S n', String _ s' => drop n' s'
  | _, _ => s
  end.

(** [s.substring(a, b)]: the arguments are swapped when [a > b] and
    clamped to the length of [s]. *)
Definition substring (s : string) (a b : nat) : string :=
  take (Nat.max a b - Nat.min a b) (drop (Nat.min a b) s).

(** [s.substring(a)]. *)
Definition substringFrom (s : string) (a : nat) : string := drop a s.

(** [s.startsWith(p)]. *)
Definition startsWith (s p : string) : bool := String.prefix p s.

(** [array.includes(x)] on an array of strings. *)
Definition includes (xs : list string) (x : string) : bool :=
  existsb (String.eqb x) xs.

(** [set.has(x)] on a [Set] of strings, kept as the list of its members. *)
Definition has (set : list string) (x : string) : bool :=
  existsb (String.eqb x) set.

(** [array.sort(compareFn)]: a stable sort; [a] stays before [b] unless
    [compareFn a b > 0]. *)
Fixpoint insertBy {A : Type} (compareFn : A -> A -> Z) (x : A) (l : list A)
  : list A :=
  match l with
  | [] => [x]
  | y :: ys =>
      if (compareFn x y <=? 0)%Z then x :: y :: ys
      else y :: insertBy compareFn x ys
  end.

Definition sort {A : Type} (compareFn : A -> A -> Z) (l : list A) : list A :=
  fold_right (insertBy compareFn) [] l.

End JS.

(** The line feed character. *)
Definition LF : string := String "010"%char EmptyString.

(** ** The syntax tree handed over by the TypeScript parser *)

(** An element of a named import.  For [import { Foo as Bar } from '...']
    the compiler API sets [propertyName] to [Foo] (the name before [as])
    and [name] to [Bar] (the declared, local name); without [as],
    [propertyName] is absent and [name] is the imported name. *)
Record ImportSpecifier : Type := {
  propertyName : option string;
  name : string
}.

Inductive NamedImportBindings : Type :=
| NamedImports (elements : list ImportSpecifier)
| NamespaceImport (alias : string).

(** [clauseName] is the default import ([import lib from '...']). *)
Record ImportClause : Type := {
  clauseName : option string;
  namedBindings : option NamedImportBindings
}.

(** A node carries [pos] (start of its leading trivia), the result of
    [getStart(sourceFile)] (start of its first token; for a string
    literal, the offset of its opening delimiter) and [end] (for a string
    literal, the offset after its closing delimiter). *)
Inductive Node : Type :=
| mkNode (pos : nat) (start : nat) (end_ : nat) (kind : SyntaxKind)
with SyntaxKind : Type :=
| StringLiteral (text : string)
| Identifier (escapedText : string)
| CallExpression (expression : Node) (arguments : list Node)
| BinaryExpression (left right : Node)
| ExpressionStatement (expression : Node)
| ImportDeclaration (importClause : option ImportClause) (moduleSpecifier : Node)
| ImportEqualsDeclaration (name : string) (moduleReference : Node)
| ExternalModuleReference (expression : Node)
| OtherKind.

Definition pos (n : Node) : nat := let 'mkNode p _ _ _ := n in p.
Definition getStart (n : Node) : nat := let 'mkNode _ s _ _ := n in s.
Definition getEnd (n : Node) : nat := let 'mkNode _ _ e _ := n in e.
Definition kind (n : Node) : SyntaxKind := let 'mkNode _ _ _ k := n in k.

(** [literal.text]: the value of a string literal (escapes resolved). *)
Definition text (n : Node) : string :=
  match kind n with
  | StringLiteral t => t
  | _ => EmptyString
  end.

Definition isStringLiteral (n : Node) : bool :=
  match kind n with StringLiteral _ => true | _ => false end.

(** [ts.isIdentifier(e) && e.escapedText === 'require']. *)
Definition isRequireIdentifier (e : Node) : bool :=
  match kind e with
  | Identifier escapedText => (escapedText =? "require")
  | _ => false
  end.

Record SourceFile : Type := { statements : list Node }.

(** ** The rule table *)

Definition EXEMPTIONS : list string := ["@aws-cdk/cloudformation-diff"].

Definition updatedLocationOf (modulePath : string) : option string :=
  if negb (JS.startsWith modulePath "@aws-cdk/") || JS.has EXEMPTIONS modulePath
  then None
  else if modulePath =? "@aws-cdk/core" then Some "aws-cdk-lib"
  else if modulePath =? "@aws-cdk/assert" then Some "@aws-cdk/assert"
  else if modulePath =? "@aws-cdk/assert/jest" then Some "@aws-cdk/assert/jest"
  else Some ("aws-cdk-lib/" ++ JS.substringFrom modulePath 9).

(** ** The import shape matcher (later version) *)

Inductive ImportType : Type := named | namespace | none.

(** The value returned by [getModuleSpecifier]:
    [{ module, type, symbols? }]. *)
Record ModuleSpecifier : Type := {
  module : Node;
  type : ImportType;
  symbols : option (list string)
}.

Fixpoint getModuleSpecifier (node : Node) : option ModuleSpecifier :=
  match node with
  | mkNode _ _ _ (ImportDeclaration importClause moduleSpecifier) =>
      match moduleSpecifier with
      | mkNode _ _ _ (StringLiteral _) =>
          match importClause with
          | None =>
              Some {| module := moduleSpecifier; type := none; symbols := None |}
          | Some clause =>
              match namedBindings clause with
              | Some (NamedImports elements) =>
                  Some {| module := moduleSpecifier; type := named;
                          symbols := Some (map name elements) |}
              | Some (NamespaceImport alias) =>
                  Some {| module := moduleSpecifier; type := namespace;
                          symbols := Some [alias] |}
              | None => None
              end
          end
      | mkNode _ _ _ (BinaryExpression _ rhs) =>
          match rhs with
          | mkNode _ _ _ (CallExpression _ _) => getModuleSpecifier rhs
          | _ => None
          end
      | _ => None
      end
  | mkNode _ _ _ (ImportEqualsDeclaration _ moduleReference) =>
      match kind moduleReference with
      | ExternalModuleReference expression =>
          if isStringLiteral expression
          then Some {| module := expression; type := none; symbols := None |}
          else None
      | _ => None
      end
  | mkNode _ _ _ (CallExpression expression arguments) =>
      if isRequireIdentifier expression && (List.length arguments =? 1)%nat
      then
        match nth_error arguments 0 with
        | Some argument =>
            if isStringLiteral argument
            then Some {| module := argument; type := none; symbols := None |}
            else None
        | None => None
        end
      else None
  | mkNode _ _ _ (ExpressionStatement expression) =>
      match expression with
      | mkNode _ _ _ (CallExpression _ _) => getModuleSpecifier expression
      | _ => None
      end
  | _ => None
  end.

(** ** Indentation of a statement *)

Definition isLineBreak (c : ascii) : bool :=
  ((c =? "010") || (c =? "013"))%char.

Definition isTabOrSpace (c : ascii) : bool :=
  ((c =? "009") || (c =? " "))%char.

Fixpoint dropWhile (p : ascii -> bool) (s : string) : string :=
  match s with
  | String c s' => if p c then dropWhile p s' else s
  | EmptyString => EmptyString
  end.

Fixpoint takeWhile (p : ascii -> bool) (s : string) : string :=
  match s with
  | String c s' => if p c then String c (takeWhile p s') else EmptyString
  | EmptyString => EmptyString
  end.

(** [/^[\n\r]*([\t ]+)/.exec(text)]: the first capture group when the
    expression matches. *)
Definition wsRe_exec (text : string) : option string :=
  match takeWhile isTabOrSpace (dropWhile isLineBreak text) with
  | EmptyString => None
  | ws => Some ws
  end.

Definition getIndent (sourceText : string) (node : Node) : string :=
  let text := JS.substring sourceText (pos node) (getEnd node) in
  match wsRe_exec text with
  | None => EmptyString
  | Some ws => ws
  end.

(** ** The edit planner and the text patcher (later version) *)

Record Replacement : Type := {
  original : Node;
  updatedLocation : string
}.

(** The two arrays the visitor pushes to. *)
Record Plan : Type := {
  replacements : list Replacement;
  importInsertions : list string
}.

Definition emptyPlan : Plan := {| replacements := []; importInsertions := [] |}.

Definition constructImport : string := "import { Construct } from 'constructs';".

(** [moduleSpecifier.module.text === '@aws-cdk/core' &&
     moduleSpecifier.symbols?.includes('Construct')]. *)
Definition relocatesConstruct (m : ModuleSpecifier) : bool :=
  (text (module m) =? "@aws-cdk/core") &&
  match symbols m with
  | Some names => JS.includes names "Construct"
  | None => false
  end.

Definition visitor (sourceText : string) (plan : Plan) (node : Node) : Plan :=
  match getModuleSpecifier node with
  | None => plan
  | Some moduleSpecifier =>
      let insertions :=
        if relocatesConstruct moduleSpecifier
        then (importInsertions plan ++
              [(getIndent sourceText node ++ constructImport)%string])%list
        else importInsertions plan in
      match updatedLocationOf (text (module moduleSpecifier)) with
      | Some newTarget =>
          {| replacements :=
               (replacements plan ++
                [{| original := module moduleSpecifier;
                    updatedLocation := newTarget |}])%list;
             importInsertions := insertions |}
      | None =>
          {| replacements := replacements plan; importInsertions := insertions |}
      end
  end.

(** [sourceFile.statements.forEach(node => ts.visitNode(node, visitor))]. *)
Definition visitStatements (sourceText : string) (sourceFile : SourceFile) : Plan :=
  fold_left (visitor sourceText) (statements sourceFile) emptyPlan.

(** The comparator given to [sort]: [r.getStart() - l.getStart()]. *)
Definition byDescendingStart (l r : Node) : Z :=
  (Z.of_nat (getStart r) - Z.of_nat (getStart l))%Z.

Definition sortReplacements (rs : list Replacement) : list Replacement :=
  JS.sort (fun l r => byDescendingStart (original l) (original r)) rs.

(** One turn of the replacement loop. *)
Definition applyReplacement (updatedSourceText : string) (replacement : Replacement)
  : string :=
  let before := JS.substring updatedSourceText 0 (getStart (original replacement) + 1) in
  let after := JS.substringFrom updatedSourceText (getEnd (original replacement) - 1) in
  before ++ updatedLocation replacement ++ after.

Definition applyReplacements (rs : list Replacement) (sourceText : string) : string :=
  fold_left applyReplacement rs sourceText.

(** One turn of the insertion loop. *)
Definition applyInsertion (updatedSourceText insertion : string) : string :=
  insertion ++ LF ++ updatedSourceText.

Definition applyInsertions (insertions : list string) (updatedSourceText : string)
  : string :=
  fold_left applyInsertion insertions updatedSourceText.

(** The rewrite of a source text whose syntax tree is [sourceFile]. *)
Definition rewriteParsed (sourceFile : SourceFile) (sourceText : string) : string :=
  let plan := visitStatements sourceText sourceFile in
  applyInsertions (importInsertions plan)
    (applyReplacements (sortReplacements (replacements plan)) sourceText).

Definition defaultFileName : string := "index.ts".

Section Rewriter.

(** [ts.createSourceFile(fileName, sourceText, ts.ScriptTarget.ES2018)]. *)
Variable createSourceFile : string -> string -> SourceFile.

Definition rewriteImports (sourceText fileName : string) : string :=
  rewriteParsed (createSourceFile fileName sourceText) sourceText.

End Rewriter.

(** ** The earlier version of the rewriter (no insertion logic) *)

Module V1.

Record Replacement : Type := {
  importNode : Node;
  original : Node;
  updatedLocation : string
}.

(** What the visitor closure mutates. *)
Record VisitorState : Type := {
  replacements : list Replacement;
  isConstructANamedImport : bool;
  constructQualifier : option string
}.

Definition initialState : VisitorState :=
  {| replacements := []; isConstructANamedImport := false;
     constructQualifier := None |}.

Fixpoint getModuleSpecifier (node : Node) : option Node :=
  match node with
  | mkNode _ _ _ (ImportDeclaration _ moduleSpecifier) =>
      match moduleSpecifier with
      | mkNode _ _ _ (StringLiteral _) => Some moduleSpecifier
      | mkNode _ _ _ (BinaryExpression _ rhs) =>
          match rhs with
          | mkNode _ _ _ (CallExpression _ _) => getModuleSpecifier rhs
          | _ => None
          end
      | _ => None
      end
  | mkNode _ _ _ (ImportEqualsDeclaration _ moduleReference) =>
      match kind moduleReference with
      | ExternalModuleReference expression =>
          if isStringLiteral expression then Some expression else None
      | _ => None
      end
  | mkNode _ _ _ (CallExpression expression arguments) =>
      if isRequireIdentifier expression && (List.length arguments =? 1)%nat
      then
        match nth_error arguments 0 with
        | Some argument =>
            if isStringLiteral argument then Some argument else None
        | None => None
        end
      else None
  | mkNode _ _ _ (ExpressionStatement expression) =>
      match expression with
      | mkNode _ _ _ (CallExpression _ _) => getModuleSpecifier expression
      | _ => None
      end
  | _ => None
  end.

Definition namedImports (node : Node) : list string :=
  match kind node with
  | ImportDeclaration (Some clause) _ =>
      match namedBindings clause with
      | Some (NamedImports elements) => map name elements
      | _ => []
      end
  | _ => []
  end.

Definition importNamespaceQualifier (node : Node) : option string :=
  match kind node with
  | ImportDeclaration (Some clause) _ =>
      match namedBindings clause with
      | Some (NamespaceImport alias) => Some alias
      | _ => None
      end
  | ImportEqualsDeclaration name _ => Some name
  | _ => None
  end.

Definition visitor (st : VisitorState) (node : Node) : VisitorState :=
  match getModuleSpecifier node with
  | None => st
  | Some moduleSpecifier =>
      match updatedLocationOf (text moduleSpecifier) with
      | None => st
      | Some newTarget =>
          let pushed :=
            (replacements st ++
             [{| importNode := node; original := moduleSpecifier;
                 updatedLocation := newTarget |}])%list in
          if text moduleSpecifier =? "@aws-cdk/core"
          then {| replacements := pushed;
                  isConstructANamedImport :=
                    existsb (fun name => name =? "Construct") (namedImports node);
                  constructQualifier := importNamespaceQualifier node |}
          else {| replacements := pushed;
                  isConstructANamedImport := isConstructANamedImport st;
                  constructQualifier := constructQualifier st |}
      end
  end.

Definition visitStatements (sourceFile : SourceFile) : VisitorState :=
  fold_left visitor (statements sourceFile) initialState.

Definition sortReplacements (rs : list Replacement) : list Replacement :=
  JS.sort (fun l r => byDescendingStart (original l) (original r)) rs.

Definition applyReplacement (updatedSourceText : string) (replacement : Replacement)
  : string :=
  let before :=
    JS.substring updatedSourceText 0 (getStart (original replacement) + 1) in
  let after :=
    JS.substringFrom updatedSourceText (getEnd (original replacement) - 1) in
  before ++ updatedLocation replacement ++ after.

Definition rewriteParsed (sourceFile : SourceFile) (sourceText : string) : string :=
  fold_left applyReplacement
    (sortReplacements (replacements (visitStatements sourceFile))) sourceText.

Section Rewriter.

Variable createSourceFile : string -> string -> SourceFile.

Definition rewriteImports (sourceText fileName : string) : string :=
  rewriteParsed (createSourceFile fileName sourceText) sourceText.

End Rewriter.

End V1.

(** ** The plan, statement by statement *)

(** What visiting one statement adds to [replacements]. *)
Definition plannedReplacement (node : Node) : list Replacement :=
  match getModuleSpecifier node with
  | Some m =>
      match updatedLocationOf (text (module m)) with
      | Some newTarget => [{| original := module m; updatedLocation := newTarget |}]
      | None => []
      end
  | None => []
  end.

(** What visiting one statement adds to [importInsertions]. *)
Definition plannedInsertion (sourceText : string) (node : Node) : list string :=
  match getModuleSpecifier node with
  | Some m =>
      if relocatesConstruct m then [getIndent sourceText node ++ constructImport]
      else []
  | None => []
  end.

(** The text put ahead of the patched source by the insertion loop. *)
Definition insertedLines (insertions : list string) : string :=
  fold_left applyInsertion insertions EmptyString.

(** Lines put one after the other, each followed by a line feed. *)
Definition joinLines (lines : list string) : string :=
  fold_right (fun line rest => line ++ LF ++ rest) EmptyString lines.

(** ** What the rewriter relies on from the parser *)

(** The string literal a statement is recognised by, if any. *)
Definition moduleLiteral (node : Node) : list Node :=
  match getModuleSpecifier node with
  | Some m => [module m]
  | None => []
  end.

Definition moduleLiterals (sourceFile : SourceFile) : list Node :=
  flat_map moduleLiteral (statements sourceFile).

(** A literal spans at least its two quote delimiters and lies in the text. *)
Definition inBounds (sourceText : string) (literal : Node) : Prop :=
  getStart literal + 2 <= getEnd literal /\
  getEnd literal <= String.length sourceText.

Definition disjoint (a b : Node) : Prop :=
  getEnd a <= getStart b \/ getEnd b <= getStart a.

(** The positions of the recognised literals are consistent with the
    source text: in bounds and pairwise disjoint. *)
Definition wellPositioned (sourceText : string) (sourceFile : SourceFile) : Prop :=
  Forall (inBounds sourceText) (moduleLiterals sourceFile) /\
  ForallOrdPairs disjoint (moduleLiterals sourceFile).

(** The replacements are ordered from the last literal to the first and
    no literal reaches into the one before it. *)
Definition descendingChain (rs : list Replacement) : Prop :=
  StronglySorted
    (fun a b => getEnd (original b) <= getStart (original a)) rs.

(** ** The plan and the edit list of a call of [rewriteImports] *)

Definition planFor (createSourceFile : string -> string -> SourceFile)
           (sourceText fileName : string) : Plan :=
  visitStatements sourceText (createSourceFile fileName sourceText).

(** The edit list the replacement loop runs over. *)
Definition editsFor (createSourceFile : string -> string -> SourceFile)
           (sourceText fileName : string) : list Replacement :=
  sortReplacements (replacements (planFor createSourceFile sourceText fileName)).

(** A recognised literal the rewriter has nothing left to do with: the
    rule table has no new path for it, or it has the path that is already
    spelled out, character for character, between the delimiters. *)
Definition settled (sourceText : string) (literal : Node) : Prop :=
  updatedLocationOf (text literal) = None \/
  (updatedLocationOf (text literal) = Some (text literal) /\
   inBounds sourceText literal /\
   JS.substring sourceText (getStart literal + 1) (getEnd literal - 1) = text literal).

(** The path of an import declaration that has an import clause without
    named or namespace bindings ([import lib from 'path']). *)
Definition defaultOnlyPath (node : Node) : option string :=
  match kind node with
  | ImportDeclaration (Some clause) moduleSpecifier =>
      match namedBindings clause with
      | None => if isStringLiteral moduleSpecifier
                then Some (text moduleSpecifier) else None
      | Some _ => None
      end
  | _ => None
  end.

(** A replacement of the earlier version, without its [importNode]. *)
Definition withoutImportNode (r : V1.Replacement) : Replacement :=
  {| original := V1.original r; updatedLocation := V1.updatedLocation r |}.

(** The exported name an element of a named import refers to: the name
    before [as] when there is one, the declared name otherwise. *)
Definition importedName (element : ImportSpecifier) : string :=
  match propertyName element with
  | Some exported => exported
  | None => name element
  end.

(** ** Further string primitives *)

(** [s.includes(part)] on strings: [part] occurs somewhere in [s]. *)
Fixpoint stringIncludes (s part : string) : bool :=
  String.prefix part s ||
  match s with
  | String _ s' => stringIncludes s' part
  | EmptyString => false
  end.

(** Whether every character of [s] satisfies [p]. *)
Fixpoint forallChars (p : ascii -> bool) (s : string) : bool :=
  match s with
  | String c s' => p c && forallChars p s'
  | EmptyString => true
  end.

(** The double quote character. *)
Definition DQUOTE : string := String "034"%char EmptyString.

(** ** The replacement loop read as one pass over the source text *)

(** The source text from offset [from] on, with the replacements of
    [ascending] (ordered by position) spliced in: up to and including the
    opening delimiter, the new path, and on from the closing delimiter. *)
Fixpoint spliceFrom (from : nat) (ascending : list Replacement) (sourceText : string)
  : string :=
  match ascending with
  | [] => JS.drop from sourceText
  | r :: rest =>
      JS.substring sourceText from (getStart (original r) + 1) ++
      updatedLocation r ++
      spliceFrom (getEnd (original r) - 1) rest sourceText
  end.

(** Number of characters between the delimiters of a replaced literal. *)
Definition interiorLength (r : Replacement) : nat :=
  getEnd (original r) - getStart (original r) - 2.

(** ** The shell conditional of the security check *)

Record ifElseOptions : Type := {
  condition : string;
  thenStatements : list string;
  elseStatements : option (list string)
}.

(** One turn of either [reduce]: [`${acc} ${statement};`]. *)
Definition appendStatement (acc statement : string) : string :=
  acc ++ " " ++ statement ++ ";".

Definition ifElse (options : ifElseOptions) : string :=
  let statement :=
    fold_left appendStatement (thenStatements options)
              ("if " ++ condition options ++ "; then") in
  let statement :=
    match elseStatements options with
    | Some statements => fold_left appendStatement statements (statement ++ " else")
    | None => statement
    end in
  statement ++ " fi".

(** The statements of a branch as they stand in the conditional. *)
Definition branchText (statements : list string) : string :=
  String.concat "" (map (fun statement => " " ++ statement ++ ";") statements).

(** ** The release configuration script *)

Module VersionRc.

(** The two environment variables the script reads. *)
Record Env : Type := {
  CDK_MAJOR_VERSION : option string;
  CDK_RELEASE_TYPE : option string
}.

(** [module.exports]. *)
Record Exports : Type := {
  version : string;
  versionFile : string;
  changelogFile : string;
  prerelease : option string;
  marker : string
}.

Inductive Outcome : Type :=
| Threw (message : string)
| Exported (exports : Exports).

(** What a run of the script leaves: the lines written with
    [console.error] and how it ended. *)
Record Run : Type := {
  stderr : list string;
  outcome : Outcome
}.

Definition ALLOWED_RELEASE_TYPES : list string := ["alpha"; "rc"; "stable"].

(** [!value] for a value that is a string or undefined. *)
Definition isFalsy (value : option string) : bool :=
  match value with
  | None => true
  | Some s => s =? ""
  end.

Section Script.

(** [path.resolve(__dirname, '..')], [path.join], [fs.existsSync] and the
    [version] field of the required version file (a string). *)
Variable repoRoot : string.
Variable join : string -> string -> string.
Variable existsSync : string -> bool.
Variable requireVersion : string -> string.

Definition script (env : Env) : Run :=
  match CDK_MAJOR_VERSION env with
  | None => {| stderr := []; outcome := Threw "CDK_MAJOR_VERSION must be defined" |}
  | Some majorVersion =>
    if isFalsy (Some majorVersion)
    then {| stderr := []; outcome := Threw "CDK_MAJOR_VERSION must be defined" |}
    else if negb (majorVersion =? "1") && negb (majorVersion =? "2")
    then {| stderr := [];
            outcome := Threw ("CDK_MAJOR_VERSION=" ++ majorVersion ++
                              " is an unsupported major version") |}
    else
    match CDK_RELEASE_TYPE env with
    | None => {| stderr := []; outcome := Threw "CDK_RELEASE_TYPE must be defined" |}
    | Some releaseType =>
      if isFalsy (Some releaseType)
      then {| stderr := []; outcome := Threw "CDK_RELEASE_TYPE must be defined" |}
      else if negb (JS.includes ALLOWED_RELEASE_TYPES releaseType)
      then {| stderr := [];
              outcome := Threw ("CDK_RELEASE_TYPE=" ++ releaseType ++
                                " is not allowed. Allowed values: " ++
                                String.concat "," ALLOWED_RELEASE_TYPES) |}
      else
      let versionFile := "version.v" ++ majorVersion ++ ".json" in
      let versionFilePath := join repoRoot versionFile in
      if negb (existsSync versionFilePath)
      then {| stderr := [];
              outcome := Threw ("unable to find version file " ++ versionFile ++
                                " for major version " ++ majorVersion) |}
      else
      let currentVersion := requireVersion versionFilePath in
      let log := ["current version: " ++ currentVersion] in
      if (releaseType =? "stable") && stringIncludes currentVersion "-"
      then {| stderr := log;
              outcome := Threw ("found pre-release tag in version specified in " ++
                                versionFile ++ " is " ++ currentVersion ++
                                " but CDK_RELEASE_TYPE is set to " ++
                                DQUOTE ++ "stable" ++ DQUOTE) |}
      else if negb (releaseType =? "stable") &&
              negb (stringIncludes currentVersion ("-" ++ releaseType ++ "."))
      then {| stderr := log;
              outcome := Threw ("could not find pre-release tag " ++
                                DQUOTE ++ releaseType ++ DQUOTE ++
                                " in current version " ++
                                DQUOTE ++ currentVersion ++ DQUOTE ++
                                " defined in " ++ versionFile) |}
      else
      let changelogFile :=
        if majorVersion =? "1" then "CHANGELOG.md"
        else "CHANGELOG.v" ++ majorVersion ++ ".md" in
      {| stderr := log;
         outcome :=
           Exported
             {| version := currentVersion;
                versionFile := versionFile;
                changelogFile := changelogFile;
                prerelease :=
                  if negb (releaseType =? "stable") then Some releaseType else None;
                marker := "0.0.0" |} |}
    end
  end.

End Script.

End VersionRc.

(** ** Sample sources with the trees the TypeScript parser builds for them *)

Module Samples.

Definition literal (pos start end_ : nat) (text : string) : Node :=
  mkNode pos start end_ (StringLiteral text).

Definition namedClause (names : list string) : option ImportClause :=
  Some {| clauseName := None;
          namedBindings :=
            Some (NamedImports
                    (map (fun n => {| propertyName := None; name := n |}) names)) |}.

Definition namespaceClause (alias : string) : option ImportClause :=
  Some {| clauseName := None; namedBindings := Some (NamespaceImport alias) |}.

(** [import { Construct } from '@aws-cdk/core';] *)
Definition coreNamed : string := "import { Construct } from '@aws-cdk/core';".

Definition coreNamedTree : SourceFile :=
  {| statements :=
       [mkNode 0 0 42
          (ImportDeclaration (namedClause ["Construct"])
             (literal 25 26 41 "@aws-cdk/core"))] |}.

(** The rewrite of [coreNamed]: the inserted line, then the patched one. *)
Definition coreNamedRewritten : string :=
  "import { Construct } from 'constructs';" ++ LF ++
  "import { Construct } from 'aws-cdk-lib';".

Definition coreNamedRewrittenTree : SourceFile :=
  {| statements :=
       [mkNode 0 0 39
          (ImportDeclaration (namedClause ["Construct"])
             (literal 25 26 38 "constructs"));
        mkNode 39 40 80
          (ImportDeclaration (namedClause ["Construct"])
             (literal 65 66 79 "aws-cdk-lib"))] |}.

(** A named import of [Construct] followed by a namespace import whose
    alias is [Construct]. *)
Definition namedThenNamespace : string :=
  coreNamed ++ LF ++ "import * as Construct from '@aws-cdk/core';".

Definition namedThenNamespaceTree : SourceFile :=
  {| statements :=
       [mkNode 0 0 42
          (ImportDeclaration (namedClause ["Construct"])
             (literal 25 26 41 "@aws-cdk/core"));
        mkNode 42 43 86
          (ImportDeclaration (namespaceClause "Construct")
             (literal 69 70 85 "@aws-cdk/core"))] |}.

(** Two named imports of [Construct], the second one indented. *)
Definition twoIndents : string :=
  coreNamed ++ LF ++ "  import { Construct, Stack } from '@aws-cdk/core';".

Definition twoIndentsTree : SourceFile :=
  {| statements :=
       [mkNode 0 0 42
          (ImportDeclaration (namedClause ["Construct"])
             (literal 25 26 41 "@aws-cdk/core"));
        mkNode 42 45 94
          (ImportDeclaration (namedClause ["Construct"; "Stack"])
             (literal 77 78 93 "@aws-cdk/core"))] |}.

(** One bare import whose path has three escaped quotes in it.  The
    literal opens at offset 7 and closes with the last character of the
    text (offset 48); its value, escapes resolved, is
    [@aws-cdk/a';import '@aws-cdk/core';//]. *)
Definition escapedQuotes : string :=
  "import '@aws-cdk/a\';import \'@aws-cdk/core\';//'".

Definition escapedQuotesTree : SourceFile :=
  {| statements :=
       [mkNode 0 0 49
          (ImportDeclaration None
             (literal 6 7 49 "@aws-cdk/a';import '@aws-cdk/core';//"))] |}.

(** The rewrite of [escapedQuotes].  The quotes are no longer escaped:
    the text now reads as a bare import of ['aws-cdk-lib/a'] (literal at
    offsets 7 to 22), a bare import of ['@aws-cdk/core'] (literal at
    offsets 30 to 45) and a line comment. *)
Definition escapedQuotesRewritten : string :=
  "import 'aws-cdk-lib/a';import '@aws-cdk/core';//'".

Definition escapedQuotesRewrittenTree : SourceFile :=
  {| statements :=
       [mkNode 0 0 23
          (ImportDeclaration None (literal 6 7 22 "aws-cdk-lib/a"));
        mkNode 23 23 46
          (ImportDeclaration None (literal 29 30 45 "@aws-cdk/core"))] |}.

(** A passthrough path, an exempted path and an ordinary legacy path. *)
Definition assertDiffIam : string :=
  "import * as assert from '@aws-cdk/assert';" ++ LF ++
  "import * as diff from '@aws-cdk/cloudformation-diff';" ++ LF ++
  "import * as iam from '@aws-cdk/aws-iam';".

Definition assertDiffIamTree : SourceFile :=
  {| statements :=
       [mkNode 0 0 42
          (ImportDeclaration (namespaceClause "assert")
             (literal 23 24 41 "@aws-cdk/assert"));
        mkNode 42 43 96
          (ImportDeclaration (namespaceClause "diff")
             (literal 64 65 95 "@aws-cdk/cloudformation-diff"));
        mkNode 96 97 137
          (ImportDeclaration (namespaceClause "iam")
             (literal 117 118 136 "@aws-cdk/aws-iam"))] |}.

(** The rewrite of [assertDiffIam]. *)
Definition assertDiffIamRewritten : string :=
  "import * as assert from '@aws-cdk/assert';" ++ LF ++
  "import * as diff from '@aws-cdk/cloudformation-diff';" ++ LF ++
  "import * as iam from 'aws-cdk-lib/aws-iam';".

Definition assertDiffIamRewrittenTree : SourceFile :=
  {| statements :=
       [mkNode 0 0 42
          (ImportDeclaration (namespaceClause "assert")
             (literal 23 24 41 "@aws-cdk/assert"));
        mkNode 42 43 96
          (ImportDeclaration (namespaceClause "diff")
             (literal 64 65 95 "@aws-cdk/cloudformation-diff"));
        mkNode 96 97 140
          (ImportDeclaration (namespaceClause "iam")
             (literal 117 118 139 "aws-cdk-lib/aws-iam"))] |}.

(** [require();] followed by [require('@aws-cdk/aws-iam');]. *)
Definition emptyRequire : string :=
  "require();" ++ LF ++ "require('@aws-cdk/aws-iam');".

Definition emptyRequireStatement : Node :=
  mkNode 0 0 10
    (ExpressionStatement
       (mkNode 0 0 9 (CallExpression (mkNode 0 0 7 (Identifier "require")) []))).

Definition emptyRequireTree : SourceFile :=
  {| statements :=
       [emptyRequireStatement;
        mkNode 10 11 39
          (ExpressionStatement
             (mkNode 10 11 38
                (CallExpression (mkNode 10 11 18 (Identifier "require"))
                   [literal 19 19 37 "@aws-cdk/aws-iam"])))] |}.

(** [import * as Construct from '@aws-cdk/core';] *)
Definition namespaceConstruct : string :=
  "import * as Construct from '@aws-cdk/core';".

Definition namespaceConstructStatement : Node :=
  mkNode 0 0 43
    (ImportDeclaration (namespaceClause "Construct")
       (literal 26 27 42 "@aws-cdk/core")).

Definition namespaceConstructTree : SourceFile :=
  {| statements := [namespaceConstructStatement] |}.

(** [import cdk from '@aws-cdk/core';] *)
Definition defaultImport : string := "import cdk from '@aws-cdk/core';".

Definition defaultImportTree : SourceFile :=
  {| statements :=
       [mkNode 0 0 32
          (ImportDeclaration
             (Some {| clauseName := Some "cdk"; namedBindings := None |})
             (literal 15 16 31 "@aws-cdk/core"))] |}.

(** [import { Construct as Base } from '@aws-cdk/core';] *)
Definition renamedConstructStatement : Node :=
  mkNode 0 0 50
    (ImportDeclaration
       (Some {| clauseName := None;
                namedBindings :=
                  Some (NamedImports
                          [{| propertyName := Some "Construct";
                              name := "Base" |}]) |})
       (literal 33 34 49 "@aws-cdk/core")).

(** [import '@aws-cdk/core] with no closing quote and nothing after it:
    the literal opens at offset 7 and runs to the end of the text
    (offset 21); its value is [@aws-cdk/core]. *)
Definition unterminatedCore : string := "import '@aws-cdk/core".

Definition unterminatedCoreTree : SourceFile :=
  {| statements :=
       [mkNode 0 0 21
          (ImportDeclaration None (literal 6 7 21 "@aws-cdk/core"))] |}.

(** A bare import of the passthrough path ['@aws-cdk/assert'] spelled
    with the escape [\x61] for its first [a]: the literal spans offsets
    7 to 27 and its value is [@aws-cdk/assert]. *)
Definition escapedAssert : string := "import '@aws-cdk/\x61ssert';".

Definition escapedAssertTree : SourceFile :=
  {| statements :=
       [mkNode 0 0 28
          (ImportDeclaration None (literal 6 7 27 "@aws-cdk/assert"))] |}.

(** Whether the range of a literal holds its path between two single
    quotes. *)
Definition spelledPlainly (sourceText : string) (literal : Node) : bool :=
  JS.substring sourceText (getStart literal) (getEnd literal)
  =? "'" ++ text literal ++ "'".

(** The parser on the sample sources (and on those only). *)
Definition parses : list (string * SourceFile) :=
  [(coreNamed, coreNamedTree);
   (coreNamedRewritten, coreNamedRewrittenTree);
   (namedThenNamespace, namedThenNamespaceTree);
   (twoIndents, twoIndentsTree);
   (escapedQuotes, escapedQuotesTree);
   (escapedQuotesRewritten, escapedQuotesRewrittenTree);
   (assertDiffIam, assertDiffIamTree);
   (assertDiffIamRewritten, assertDiffIamRewrittenTree);
   (emptyRequire, emptyRequireTree);
   (namespaceConstruct, namespaceConstructTree);
   (defaultImport, defaultImportTree);
   (unterminatedCore, unterminatedCoreTree);
   (escapedAssert, escapedAssertTree)].

Definition createSourceFile (fileName sourceText : string) : SourceFile :=
  match find (fun entry => fst entry =? sourceText) parses with
  | Some entry => snd entry
  | None => {| statements := [] |}
  end.

End Samples.

(** * Properties *)

(** ** The rewriter on the sample sources *)

Example rewrite_coreNamed :
  rewriteImports Samples.createSourceFile Samples.coreNamed defaultFileName
  = Samples.coreNamedRewritten.
Proof. reflexivity. Qed.

Example rewrite_coreNamedRewritten :
  rewriteImports Samples.createSourceFile Samples.coreNamedRewritten defaultFileName
  = Samples.coreNamedRewritten.
Proof. reflexivity. Qed.

Example rewrite_assertDiffIam :
  rewriteImports Samples.createSourceFile Samples.assertDiffIam defaultFileName
  = Samples.assertDiffIamRewritten.
Proof. reflexivity. Qed.

Example rewrite_emptyRequire :
  rewriteImports Samples.createSourceFile Samples.emptyRequire defaultFileName
  = "require();" ++ LF ++ "require('aws-cdk-lib/aws-iam');".
Proof. reflexivity. Qed.

(** In the sample trees every recognised literal spans its path and the
    two quotes around it (in [escapedQuotes] the path is spelled with
    escapes, and the literal spans the rest of the text). *)
Example sample_literals_spelled_plainly :
  forallb
    (fun sample =>
       forallb (Samples.spelledPlainly (fst sample)) (moduleLiterals (snd sample)))
    [(Samples.coreNamed, Samples.coreNamedTree);
     (Samples.coreNamedRewritten, Samples.coreNamedRewrittenTree);
     (Samples.namedThenNamespace, Samples.namedThenNamespaceTree);
     (Samples.twoIndents, Samples.twoIndentsTree);
     (Samples.escapedQuotesRewritten, Samples.escapedQuotesRewrittenTree);
     (Samples.assertDiffIam, Samples.assertDiffIamTree);
     (Samples.assertDiffIamRewritten, Samples.assertDiffIamRewrittenTree);
     (Samples.emptyRequire, Samples.emptyRequireTree);
     (Samples.namespaceConstruct, Samples.namespaceConstructTree);
     (Samples.defaultImport, Samples.defaultImportTree)] = true /\
  JS.substring Samples.escapedQuotes 7 49
  = "'@aws-cdk/a\';import \'@aws-cdk/core\';//'".
Proof. split; reflexivity. Qed.

Example indent_of_second_statement :
  map (getIndent Samples.twoIndents) (statements Samples.twoIndentsTree)
  = [""; "  "].
Proof. reflexivity. Qed.

(** ** Strings *)

Section StringFacts.

Lemma append_assoc (a b c : string) : (a ++ b) ++ c = a ++ (b ++ c).
Proof. induction a as [|x a IH]; simpl; [reflexivity | now rewrite IH]. Qed.

Lemma append_nil_r (a : string) : a ++ "" = a.
Proof. induction a as [|x a IH]; simpl; [reflexivity | now rewrite IH]. Qed.

Lemma length_append (a b : string) :
  String.length (a ++ b) = String.length a + String.length b.
Proof. induction a as [|x a IH]; simpl; [reflexivity | now rewrite IH]. Qed.

Lemma take_0 (s : string) : JS.take 0 s = "".
Proof. now destruct s. Qed.

Lemma drop_0 (s : string) : JS.drop 0 s = s.
Proof. now destruct s. Qed.

Lemma take_drop (n : nat) (s : string) : JS.take n s ++ JS.drop n s = s.
Proof.
  revert s; induction n as [|n IH]; intros [|c s]; simpl; try reflexivity.
  now rewrite IH.
Qed.

Lemma length_take (n : nat) (s : string) :
  String.length (JS.take n s) = Nat.min n (String.length s).
Proof.
  revert s; induction n as [|n IH]; intros [|c s]; simpl; try reflexivity.
  now rewrite IH.
Qed.

Lemma length_drop (n : nat) (s : string) :
  String.length (JS.drop n s) = String.length s - n.
Proof.
  revert s; induction n as [|n IH]; intros [|c s]; simpl; try reflexivity.
  now rewrite IH.
Qed.

Lemma take_all (n : nat) (s : string) :
  String.length s <= n -> JS.take n s = s.
Proof.
  revert s; induction n as [|n IH]; intros [|c s]; simpl; intros H;
    try reflexivity; try lia.
  rewrite IH; [reflexivity | lia].
Qed.

Lemma drop_all (n : nat) (s : string) :
  String.length s <= n -> JS.drop n s = "".
Proof.
  revert s; induction n as [|n IH]; intros [|c s]; simpl; intros H;
    try reflexivity; try lia.
  apply IH; lia.
Qed.

Lemma take_app_le (n : nat) (a b : string) :
  n <= String.length a -> JS.take n (a ++ b) = JS.take n a.
Proof.
  revert a; induction n as [|n IH]; intros [|c a]; simpl; intros H;
    try reflexivity; try lia.
  rewrite IH; [reflexivity | lia].
Qed.

Lemma drop_app_le (n : nat) (a b : string) :
  n <= String.length a -> JS.drop n (a ++ b) = JS.drop n a ++ b.
Proof.
  revert a; induction n as [|n IH]; intros [|c a]; simpl; intros H;
    try reflexivity; try lia.
  apply IH; lia.
Qed.

Lemma take_app_length (a b : string) : JS.take (String.length a) (a ++ b) = a.
Proof. induction a as [|c a IH]; simpl; [reflexivity | now rewrite IH]. Qed.

Lemma drop_app_length (a b : string) : JS.drop (String.length a) (a ++ b) = b.
Proof. induction a as [|c a IH]; simpl; [reflexivity | exact IH]. Qed.

Lemma take_take (a b : nat) (s : string) :
  a <= b -> JS.take a (JS.take b s) = JS.take a s.
Proof.
  revert b s; induction a as [|a IH]; intros [|b] [|c s] H; simpl;
    try reflexivity; try lia.
  rewrite IH; [reflexivity | lia].
Qed.

Lemma drop_drop (a b : nat) (s : string) :
  JS.drop a (JS.drop b s) = JS.drop (b + a) s.
Proof.
  revert s; induction b as [|b IH]; intros s; simpl.
  - reflexivity.
  - destruct s as [|c s]; [now destruct a | apply IH].
Qed.

Lemma drop_take (a b : nat) (s : string) :
  JS.drop a (JS.take b s) = JS.take (b - a) (JS.drop a s).
Proof.
  revert b s; induction a as [|a IH]; intros b s; simpl.
  - now rewrite Nat.sub_0_r.
  - destruct b as [|b]; destruct s as [|c s]; simpl; try reflexivity.
    + now destruct (b - a).
    + apply IH.
Qed.

Lemma substring_0 (s : string) (k : nat) : JS.substring s 0 k = JS.take k s.
Proof.
  unfold JS.substring. now rewrite Nat.max_0_l, Nat.min_0_l, Nat.sub_0_r.
Qed.

Lemma substring_le (s : string) (a b : nat) :
  a <= b -> JS.substring s a b = JS.take (b - a) (JS.drop a s).
Proof.
  intros H. unfold JS.substring.
  now rewrite Nat.max_r, Nat.min_l by lia.
Qed.

(** A text cut at [a] and [b] is its three pieces put together. *)
Lemma split3 (s : string) (a b : nat) :
  a <= b ->
  s = JS.take a s ++ JS.substring s a b ++ JS.drop b s.
Proof.
  intros H. rewrite substring_le by assumption.
  rewrite <- (take_drop a s) at 1. f_equal.
  rewrite <- (take_drop (b - a) (JS.drop a s)) at 1. f_equal.
  rewrite drop_drop. f_equal. lia.
Qed.

Lemma take_add (n m : nat) (s : string) :
  JS.take (n + m) s = JS.take n s ++ JS.take m (JS.drop n s).
Proof.
  revert s; induction n as [|n IH]; intros s; simpl; [reflexivity|].
  destruct s as [|c s]; simpl; [now destruct m | now rewrite IH].
Qed.

Lemma substring_split (s : string) (a b c : nat) :
  a <= b -> b <= c ->
  JS.substring s a c = JS.substring s a b ++ JS.substring s b c.
Proof.
  intros ab bc. rewrite !substring_le by lia.
  replace (c - a) with ((b - a) + (c - b)) by lia.
  rewrite take_add, drop_drop. do 3 f_equal. lia.
Qed.

(** A text cut around a literal that spans [s, e): what precedes it, its
    first character, what lies between its first and last character,
    its last character, what follows it. *)
Lemma split5 (t : string) (s e : nat) :
  s + 2 <= e -> e <= String.length t ->
  t = JS.take s t ++ JS.substring t s (s + 1) ++
      JS.substring t (s + 1) (e - 1) ++ JS.substring t (e - 1) e ++
      JS.drop e t.
Proof.
  intros H1 H2. rewrite (split3 t s e) at 1 by lia. f_equal.
  rewrite (substring_split t s (s + 1) e) by lia.
  rewrite (substring_split t (s + 1) (e - 1) e) by lia.
  now rewrite !append_assoc.
Qed.

Lemma startsWith_app (p rest : string) : JS.startsWith (p ++ rest) p = true.
Proof.
  unfold JS.startsWith. induction p as [|c p IH]; simpl.
  - now destruct rest.
  - destruct (ascii_dec c c) as [_|n]; [exact IH | now elim n].
Qed.

Lemma startsWith_inv (s p : string) :
  JS.startsWith s p = true -> s = p ++ JS.drop (String.length p) s.
Proof.
  unfold JS.startsWith. revert s; induction p as [|c p IH]; intros s H; simpl.
  - reflexivity.
  - destruct s as [|d s]; simpl in H; [discriminate|].
    destruct (ascii_dec c d) as [->|_]; [|discriminate].
    simpl. f_equal. now apply IH.
Qed.

Lemma startsWith_iff (s p : string) :
  JS.startsWith s p = true <-> exists rest, s = p ++ rest.
Proof.
  split.
  - intros H. eexists. now apply startsWith_inv.
  - intros [rest ->]. apply startsWith_app.
Qed.

Lemma has_In (set : list string) (x : string) :
  JS.has set x = true <-> In x set.
Proof.
  unfold JS.has. rewrite existsb_exists. split.
  - intros [y [Hy E]]. apply String.eqb_eq in E. now subst.
  - intros H. exists x. split; [assumption | apply String.eqb_refl].
Qed.

End StringFacts.

(** ** The rule table *)

(** C1, as stated, fails: ['@aws-cdk/assert'] starts with the deprecated
    prefix, is neither exempt nor the root aggregator, and yet is not sent
    to ['aws-cdk-lib/assert']. *)
Lemma updatedLocationOf_assert_not_consolidated :
  JS.startsWith "@aws-cdk/assert" "@aws-cdk/" = true /\
  ~ In "@aws-cdk/assert" EXEMPTIONS /\
  "@aws-cdk/assert" <> "@aws-cdk/core" /\
  updatedLocationOf "@aws-cdk/assert"
    <> Some ("aws-cdk-lib/" ++ JS.substringFrom "@aws-cdk/assert" 9).
Proof.
  repeat split; try discriminate.
  simpl. intros [H | []]. discriminate.
Qed.

(** C1, amended: outside the deprecated prefix or in the exemption set the
    rule table answers [None]; ['@aws-cdk/core'] goes to ['aws-cdk-lib'];
    ['@aws-cdk/assert'] and ['@aws-cdk/assert/jest'] go to themselves;
    every other path ['@aws-cdk/' ++ rest] goes to ['aws-cdk-lib/' ++ rest]. *)
Theorem updatedLocationOf_cases (modulePath : string) :
  ((~ (exists rest, modulePath = "@aws-cdk/" ++ rest) \/ In modulePath EXEMPTIONS) ->
   updatedLocationOf modulePath = None) /\
  (modulePath = "@aws-cdk/core" ->
   updatedLocationOf modulePath = Some "aws-cdk-lib") /\
  (modulePath = "@aws-cdk/assert" \/ modulePath = "@aws-cdk/assert/jest" ->
   updatedLocationOf modulePath = Some modulePath) /\
  (forall rest,
     modulePath = "@aws-cdk/" ++ rest ->
     ~ In modulePath EXEMPTIONS ->
     modulePath <> "@aws-cdk/core" ->
     modulePath <> "@aws-cdk/assert" ->
     modulePath <> "@aws-cdk/assert/jest" ->
     updatedLocationOf modulePath = Some ("aws-cdk-lib/" ++ rest)).
Proof.
  repeat split.
  - intros H. unfold updatedLocationOf.
    destruct (JS.startsWith modulePath "@aws-cdk/") eqn:P; [|reflexivity].
    destruct (JS.has EXEMPTIONS modulePath) eqn:E; [reflexivity|].
    destruct H as [H | H].
    + elim H. now apply startsWith_iff.
    + apply has_In in H. congruence.
  - intros ->. reflexivity.
  - intros [-> | ->]; reflexivity.
  - intros rest -> NE NC NA NJ. unfold updatedLocationOf.
    rewrite startsWith_app. simpl negb.
    destruct (JS.has EXEMPTIONS ("@aws-cdk/" ++ rest)) eqn:E.
    { apply has_In in E. contradiction. }
    simpl orb.
    destruct (String.eqb_spec ("@aws-cdk/" ++ rest) "@aws-cdk/core"); [contradiction|].
    destruct (String.eqb_spec ("@aws-cdk/" ++ rest) "@aws-cdk/assert"); [contradiction|].
    destruct (String.eqb_spec ("@aws-cdk/" ++ rest) "@aws-cdk/assert/jest");
      [contradiction|].
    reflexivity.
Qed.

Lemma updatedLocationOf_cases_witness :
  updatedLocationOf "lodash" = None /\
  updatedLocationOf "@aws-cdk/cloudformation-diff" = None /\
  updatedLocationOf "@aws-cdk/core" = Some "aws-cdk-lib" /\
  updatedLocationOf "@aws-cdk/assert/jest" = Some "@aws-cdk/assert/jest" /\
  updatedLocationOf "@aws-cdk/aws-iam" = Some "aws-cdk-lib/aws-iam".
Proof.
  split; [|split; [|split; [|split]]].
  - apply (proj1 (updatedLocationOf_cases "lodash")).
    left. intros [rest H]. discriminate H.
  - apply (proj1 (updatedLocationOf_cases "@aws-cdk/cloudformation-diff")).
    right. simpl. left. reflexivity.
  - apply (proj1 (proj2 (updatedLocationOf_cases "@aws-cdk/core"))). reflexivity.
  - apply (proj1 (proj2 (proj2 (updatedLocationOf_cases "@aws-cdk/assert/jest")))).
    right. reflexivity.
  - apply (proj2 (proj2 (proj2 (updatedLocationOf_cases "@aws-cdk/aws-iam")))
             "aws-iam").
    + reflexivity.
    + simpl. intros [H | []]. discriminate H.
    + discriminate.
    + discriminate.
    + discriminate.
Defined.

(** ** The edit planner as a pure fold *)

Section PlannerFacts.

Variable sourceText : string.

Lemma visitor_adds (plan : Plan) (node : Node) :
  visitor sourceText plan node =
  {| replacements := (replacements plan ++ plannedReplacement node)%list;
     importInsertions :=
       (importInsertions plan ++ plannedInsertion sourceText node)%list |}.
Proof.
  unfold visitor, plannedReplacement, plannedInsertion.
  destruct (getModuleSpecifier node) as [m|].
  - destruct (updatedLocationOf (text (module m)));
      destruct (relocatesConstruct m); simpl; now rewrite ?app_nil_r.
  - destruct plan; simpl. now rewrite !app_nil_r.
Qed.

Lemma fold_visitor (stmts : list Node) (plan : Plan) :
  fold_left (visitor sourceText) stmts plan =
  {| replacements :=
       (replacements plan ++ flat_map plannedReplacement stmts)%list;
     importInsertions :=
       (importInsertions plan ++ flat_map (plannedInsertion sourceText) stmts)%list |}.
Proof.
  revert plan; induction stmts as [|n stmts IH]; intros plan; simpl.
  - destruct plan; simpl. now rewrite !app_nil_r.
  - rewrite IH, visitor_adds. simpl. now rewrite <- !app_assoc.
Qed.

Lemma visitStatements_flat_map (sourceFile : SourceFile) :
  visitStatements sourceText sourceFile =
  {| replacements := flat_map plannedReplacement (statements sourceFile);
     importInsertions :=
       flat_map (plannedInsertion sourceText) (statements sourceFile) |}.
Proof. unfold visitStatements. now rewrite fold_visitor. Qed.

End PlannerFacts.

Lemma plannedReplacement_literal (stmts : list Node) (r : Replacement) :
  In r (flat_map plannedReplacement stmts) ->
  In (original r) (flat_map moduleLiteral stmts) /\
  updatedLocationOf (text (original r)) = Some (updatedLocation r).
Proof.
  induction stmts as [|n stmts IH]; simpl; [intros []|].
  rewrite !in_app_iff. intros [H | H].
  - unfold plannedReplacement, moduleLiteral in *.
    destruct (getModuleSpecifier n) as [m|]; [|destruct H].
    destruct (updatedLocationOf (text (module m))) eqn:E; [|destruct H].
    destruct H as [<- | []]. simpl. split; [left; now left | exact E].
  - destruct (IH H) as [H1 H2]. split; [now right | exact H2].
Qed.

(** ** The insertion loop *)

Lemma applyInsertions_app (insertions : list string) (a b : string) :
  applyInsertions insertions (a ++ b) = applyInsertions insertions a ++ b.
Proof.
  unfold applyInsertions. revert a.
  induction insertions as [|i insertions IH]; intros a; simpl; [reflexivity|].
  unfold applyInsertion at 2 4. rewrite <- IH. f_equal.
  now rewrite !append_assoc.
Qed.

Lemma applyInsertions_insertedLines (insertions : list string) (t : string) :
  applyInsertions insertions t = insertedLines insertions ++ t.
Proof. apply (applyInsertions_app insertions "" t). Qed.

Lemma insertedLines_snoc (insertions : list string) (i : string) :
  insertedLines (insertions ++ [i]) = i ++ LF ++ insertedLines insertions.
Proof. unfold insertedLines. now rewrite fold_left_app. Qed.

(** Each insertion is put in front of the ones made before it. *)
Lemma insertedLines_rev (insertions : list string) :
  insertedLines insertions = joinLines (rev insertions).
Proof.
  induction insertions as [|i insertions IH] using rev_ind; [reflexivity|].
  rewrite insertedLines_snoc, rev_unit. simpl. now rewrite IH.
Qed.

(** ** Sorting *)

Section SortFacts.

Context {A : Type} (compareFn : A -> A -> Z) (key : A -> nat).

Hypothesis compareFn_key :
  forall x y, (compareFn x y <= 0)%Z <-> key y <= key x.

Let descending (a b : A) : Prop := key b <= key a.

Lemma insertBy_perm (x : A) (l : list A) :
  Permutation (x :: l) (JS.insertBy compareFn x l).
Proof.
  induction l as [|y l IH]; simpl; [reflexivity|].
  destruct (compareFn x y <=? 0)%Z; [reflexivity|].
  rewrite perm_swap. now constructor.
Qed.

Lemma sort_perm (l : list A) : Permutation l (JS.sort compareFn l).
Proof.
  induction l as [|x l IH]; simpl; [constructor|].
  rewrite <- insertBy_perm. now constructor.
Qed.

Lemma insertBy_sorted (x : A) (l : list A) :
  StronglySorted descending l ->
  StronglySorted descending (JS.insertBy compareFn x l).
Proof.
  induction 1 as [|y l S IH F]; simpl.
  - repeat constructor.
  - destruct (Z.leb_spec (compareFn x y) 0) as [L | G].
    + apply compareFn_key in L. constructor; [now constructor|].
      constructor; [exact L|].
      eapply Forall_impl; [|exact F]. unfold descending. simpl. intros; lia.
    + assert (key x <= key y).
      { destruct (Nat.le_gt_cases (key y) (key x)) as [C|C]; [|lia].
        apply compareFn_key in C. lia. }
      constructor; [exact IH|].
      rewrite <- insertBy_perm. constructor; assumption.
Qed.

Lemma sort_sorted (l : list A) : StronglySorted descending (JS.sort compareFn l).
Proof.
  induction l as [|x l IH]; simpl; [constructor | now apply insertBy_sorted].
Qed.

Variable R : A -> A -> Prop.
Hypothesis R_sym : forall a b, R a b -> R b a.

Lemma insertBy_pairs (x : A) (l : list A) :
  Forall (R x) l -> ForallOrdPairs R l ->
  ForallOrdPairs R (JS.insertBy compareFn x l).
Proof.
  induction l as [|y l IH]; simpl; intros F P.
  - repeat constructor.
  - destruct (compareFn x y <=? 0)%Z.
    + now constructor.
    + inversion F; subst. inversion P; subst.
      constructor; [|now apply IH].
      rewrite <- insertBy_perm. constructor; [now apply R_sym | assumption].
Qed.

Lemma sort_pairs (l : list A) :
  ForallOrdPairs R l -> ForallOrdPairs R (JS.sort compareFn l).
Proof.
  induction 1 as [|x l F P IH]; simpl; [constructor|].
  apply insertBy_pairs; [|exact IH].
  now rewrite <- sort_perm.
Qed.

End SortFacts.

(** ** The replacement loop *)

Section PatcherFacts.

Lemma applyReplacement_eq (t : string) (r : Replacement) :
  applyReplacement t r =
  JS.take (getStart (original r) + 1) t ++ updatedLocation r ++
  JS.drop (getEnd (original r) - 1) t.
Proof. unfold applyReplacement, JS.substringFrom. now rewrite substring_0. Qed.

Lemma inBounds_longer (t t' : string) (l : Node) :
  String.length t <= String.length t' -> inBounds t l -> inBounds t' l.
Proof. unfold inBounds. intros; lia. Qed.

Lemma length_applyReplacement (t : string) (r : Replacement) :
  inBounds t (original r) ->
  getStart (original r) + 1 <= String.length (applyReplacement t r).
Proof.
  intros [H1 H2]. rewrite applyReplacement_eq, length_append, length_take. lia.
Qed.

Lemma descendingChain_app (l1 l2 : list Replacement) :
  descendingChain (l1 ++ l2) ->
  descendingChain l1 /\ descendingChain l2 /\
  Forall (fun x =>
            Forall (fun y => getEnd (original y) <= getStart (original x)) l2) l1.
Proof.
  unfold descendingChain. induction l1 as [|x l1 IH]; simpl; intros H.
  - repeat split; [constructor | assumption | constructor].
  - apply StronglySorted_inv in H. destruct H as [S F].
    destruct (IH S) as [S1 [S2 F12]]. apply Forall_app in F.
    destruct F as [F1 F2].
    repeat split; [now constructor | assumption | now constructor].
Qed.

(** After one replacement the literals before it are still in bounds. *)
Lemma inBounds_step (t : string) (r : Replacement) (rs : list Replacement) :
  descendingChain (r :: rs) ->
  Forall (fun x => inBounds t (original x)) (r :: rs) ->
  Forall (fun x => inBounds (applyReplacement t r) (original x)) rs.
Proof.
  intros C B. apply StronglySorted_inv in C. destruct C as [_ C].
  inversion B as [|? ? Br Brs]; subst.
  pose proof (length_applyReplacement t r Br) as L.
  rewrite Forall_forall in *. intros y Hy.
  specialize (C y Hy). specialize (Brs y Hy). cbv beta in *.
  unfold inBounds in *. lia.
Qed.

(** Replacing from the end backwards leaves the text before the
    replaced literals as it was. *)
Lemma prefix_kept (rs : list Replacement) (t : string) (c : nat) :
  descendingChain rs ->
  Forall (fun x => inBounds t (original x)) rs ->
  Forall (fun x => c <= getStart (original x) + 1) rs ->
  JS.take c (applyReplacements rs t) = JS.take c t.
Proof.
  revert t; induction rs as [|r rs IH]; intros t C B P; [reflexivity|].
  unfold applyReplacements in *. simpl.
  inversion P as [|? ? Pr Prs]; subst.
  rewrite IH.
  - rewrite applyReplacement_eq. inversion B as [|? ? [B1 B2] _]; subst.
    rewrite take_app_le by (rewrite length_take; lia).
    apply take_take. lia.
  - apply StronglySorted_inv in C. tauto.
  - now apply inBounds_step.
  - assumption.
Qed.

(** Text after the last replaced literal is carried along unchanged. *)
Lemma suffix_carried (rs : list Replacement) (x y : string) :
  descendingChain rs ->
  Forall (fun r => inBounds x (original r)) rs ->
  applyReplacements rs (x ++ y) = applyReplacements rs x ++ y.
Proof.
  revert x; induction rs as [|r rs IH]; intros x C B; [reflexivity|].
  unfold applyReplacements in *. simpl.
  assert (E : applyReplacement (x ++ y) r = applyReplacement x r ++ y).
  { rewrite !applyReplacement_eq. inversion B as [|? ? [B1 B2] _]; subst.
    rewrite take_app_le, drop_app_le by lia.
    now rewrite !append_assoc. }
  rewrite E. apply IH.
  - apply StronglySorted_inv in C. tauto.
  - now apply inBounds_step.
Qed.

Lemma applyReplacements_app (l1 l2 : list Replacement) (t : string) :
  applyReplacements (l1 ++ l2) t = applyReplacements l2 (applyReplacements l1 t).
Proof. unfold applyReplacements. apply fold_left_app. Qed.

(** A stretch [a, b) of the source that no replaced literal reaches into
    comes out unchanged, between the patched text before it and the
    patched text after it. *)
Lemma region_kept (later earlier : list Replacement) (t : string) (a b : nat) :
  descendingChain later -> descendingChain earlier ->
  Forall (fun r => inBounds t (original r)) later ->
  Forall (fun r => inBounds (JS.take a t) (original r)) earlier ->
  Forall (fun r => b <= getStart (original r)) later ->
  a <= b -> b <= String.length t ->
  applyReplacements (later ++ earlier) t =
  applyReplacements earlier (JS.take a t) ++ JS.substring t a b ++
  JS.drop b (applyReplacements later t).
Proof.
  intros Cl Ce Bl Be P ab bt.
  rewrite applyReplacements_app.
  set (m := applyReplacements later t).
  assert (K : JS.take b m = JS.take b t).
  { apply prefix_kept; try assumption.
    eapply Forall_impl; [|exact P]. simpl. intros; lia. }
  rewrite <- (take_drop b m) at 1. rewrite K.
  rewrite (split3 (JS.take b t) a b) by assumption.
  rewrite take_take by assumption.
  rewrite (drop_all b (JS.take b t)) by (rewrite length_take; lia).
  rewrite append_nil_r.
  assert (E : JS.substring (JS.take b t) a b = JS.substring t a b).
  { rewrite !substring_le by assumption.
    rewrite drop_take. apply take_take. lia. }
  rewrite E, !append_assoc.
  now apply suffix_carried.
Qed.

(** Where a literal is replaced, the output has the text before the
    literal (patched), the character the literal starts with, the new
    path, the character the literal ends with, and the text after the
    literal (patched). *)
Lemma literal_replaced
      (later earlier : list Replacement) (r : Replacement) (t : string) :
  descendingChain (later ++ r :: earlier) ->
  Forall (fun x => inBounds t (original x)) (later ++ r :: earlier) ->
  applyReplacements (later ++ r :: earlier) t =
  applyReplacements earlier (JS.take (getStart (original r)) t) ++
  JS.substring t (getStart (original r)) (getStart (original r) + 1) ++
  updatedLocation r ++
  JS.substring t (getEnd (original r) - 1) (getEnd (original r)) ++
  JS.drop (getEnd (original r)) (applyReplacements later t).
Proof.
  intros C B.
  apply descendingChain_app in C. destruct C as [Cl [Cr X]].
  apply Forall_app in B. destruct B as [Bl Br].
  inversion Br as [|? ? [B1 B2] Be]; subst.
  pose proof Cr as Cr'. apply StronglySorted_inv in Cr'. destruct Cr' as [Ce Fe].
  set (s := getStart (original r)) in *. set (e := getEnd (original r)) in *.
  rewrite applyReplacements_app.
  set (m := applyReplacements later t).
  assert (K : JS.take e m = JS.take e t).
  { apply prefix_kept; try assumption.
    eapply Forall_impl; [|exact X]. simpl. intros x Hx.
    inversion Hx; subst. fold e in H1. lia. }
  assert (Lm : e <= String.length m).
  { assert (H : String.length (JS.take e m) = e)
      by (rewrite K, length_take; lia).
    rewrite length_take in H. lia. }
  unfold applyReplacements at 1. simpl. fold (applyReplacements earlier).
  rewrite applyReplacement_eq. fold s e.
  assert (E1 : JS.take (s + 1) m = JS.take s t ++ JS.substring t s (s + 1)).
  { rewrite <- (take_take (s + 1) e m), K, take_take by lia.
    rewrite (split3 (JS.take (s + 1) t) s (s + 1)) by lia.
    rewrite take_take by lia.
    rewrite (drop_all (s + 1)) by (rewrite length_take; lia).
    rewrite append_nil_r. f_equal.
    rewrite !substring_le by lia. rewrite drop_take. apply take_take. lia. }
  assert (E2 : JS.drop (e - 1) m = JS.substring t (e - 1) e ++ JS.drop e m).
  { rewrite <- (take_drop e m) at 1. rewrite K.
    rewrite drop_app_le by (rewrite length_take; lia). f_equal.
    rewrite substring_le by lia. apply drop_take. }
  rewrite E1, E2, !append_assoc.
  apply suffix_carried; [assumption|].
  rewrite Forall_forall in *. intros y Hy.
  specialize (Fe y Hy). specialize (Be y Hy). fold s in Fe.
  unfold inBounds in *. rewrite length_take. lia.
Qed.

End PatcherFacts.

(** ** From the parser's positions to the edit list *)

Section EditListFacts.

Lemma compare_by_start (x y : Replacement) :
  (byDescendingStart (original x) (original y) <= 0)%Z <->
  getStart (original y) <= getStart (original x).
Proof. unfold byDescendingStart. lia. Qed.

Lemma sortReplacements_perm (rs : list Replacement) :
  Permutation rs (sortReplacements rs).
Proof. apply sort_perm. Qed.

Lemma sortReplacements_sorted (rs : list Replacement) :
  StronglySorted
    (fun a b => getStart (original b) <= getStart (original a))
    (sortReplacements rs).
Proof.
  apply (sort_sorted _ (fun r => getStart (original r))).
  apply compare_by_start.
Qed.

Lemma planned_pairs (stmts : list Node) :
  ForallOrdPairs disjoint (flat_map moduleLiteral stmts) ->
  ForallOrdPairs (fun a b => disjoint (original a) (original b))
                 (flat_map plannedReplacement stmts).
Proof.
  induction stmts as [|n stmts IH]; simpl; intros P; [constructor|].
  unfold moduleLiteral at 1 in P. unfold plannedReplacement at 1.
  destruct (getModuleSpecifier n) as [m|]; [|now apply IH].
  simpl in P. inversion P as [|? ? F P']; subst.
  destruct (updatedLocationOf (text (module m))); [|now apply IH].
  simpl. constructor; [|now apply IH].
  rewrite Forall_forall in *. intros r Hr.
  apply plannedReplacement_literal in Hr. now apply F.
Qed.

(** Sorted by descending start, literals that do not overlap form a
    chain. *)
Lemma sorted_disjoint_chain (rs : list Replacement) :
  StronglySorted (fun a b => getStart (original b) <= getStart (original a)) rs ->
  ForallOrdPairs (fun a b => disjoint (original a) (original b)) rs ->
  Forall (fun r => getStart (original r) + 2 <= getEnd (original r)) rs ->
  descendingChain rs.
Proof.
  unfold descendingChain.
  induction rs as [|x rs IH]; intros S P N; [constructor|].
  apply StronglySorted_inv in S. destruct S as [S F].
  inversion P as [|? ? D P']; subst. inversion N as [|? ? Nx N']; subst.
  constructor; [now apply IH|].
  rewrite Forall_forall in *. intros y Hy.
  specialize (F y Hy). specialize (D y Hy). specialize (N' y Hy).
  cbv beta in *. unfold disjoint in D. lia.
Qed.

Lemma disjoint_sym (a b : Node) : disjoint a b -> disjoint b a.
Proof. unfold disjoint. tauto. Qed.

Variable createSourceFile : string -> string -> SourceFile.
Variables sourceText fileName : string.

Lemma planFor_replacements :
  replacements (planFor createSourceFile sourceText fileName) =
  flat_map plannedReplacement (statements (createSourceFile fileName sourceText)).
Proof. unfold planFor. now rewrite visitStatements_flat_map. Qed.

Lemma planFor_importInsertions :
  importInsertions (planFor createSourceFile sourceText fileName) =
  flat_map (plannedInsertion sourceText)
           (statements (createSourceFile fileName sourceText)).
Proof. unfold planFor. now rewrite visitStatements_flat_map. Qed.

Lemma rewriteImports_phases :
  rewriteImports createSourceFile sourceText fileName =
  insertedLines (importInsertions (planFor createSourceFile sourceText fileName)) ++
  applyReplacements (editsFor createSourceFile sourceText fileName) sourceText.
Proof.
  unfold rewriteImports, rewriteParsed, editsFor, planFor.
  apply applyInsertions_insertedLines.
Qed.

Hypothesis positions : wellPositioned sourceText (createSourceFile fileName sourceText).

Lemma planned_inBounds :
  Forall (fun r => inBounds sourceText (original r))
         (replacements (planFor createSourceFile sourceText fileName)).
Proof.
  rewrite planFor_replacements. destruct positions as [B _].
  unfold moduleLiterals in B. rewrite Forall_forall in *. intros r Hr.
  apply plannedReplacement_literal in Hr. now apply B.
Qed.

Lemma edits_inBounds :
  Forall (fun r => inBounds sourceText (original r))
         (editsFor createSourceFile sourceText fileName).
Proof.
  unfold editsFor. rewrite <- sortReplacements_perm. apply planned_inBounds.
Qed.

Lemma edits_chain : descendingChain (editsFor createSourceFile sourceText fileName).
Proof.
  apply sorted_disjoint_chain.
  - apply sortReplacements_sorted.
  - unfold editsFor, sortReplacements.
    apply (sort_pairs _ (fun a b => disjoint (original a) (original b))).
    + intros a b. apply disjoint_sym.
    + rewrite planFor_replacements. apply planned_pairs.
      now destruct positions.
  - eapply Forall_impl; [|apply edits_inBounds].
    intros r [H _]. exact H.
Qed.

End EditListFacts.

(** Discharges [wellPositioned] and similar side conditions on a sample
    source, where every position is a numeral. *)
Ltac by_positions :=
  repeat match goal with
         | |- wellPositioned _ _ => split
         | |- _ /\ _ => split
         | |- Forall _ _ => vm_compute; repeat (apply Forall_cons || apply Forall_nil)
         | |- ForallOrdPairs _ _ =>
             vm_compute; repeat (apply FOP_cons || apply FOP_nil)
         end;
  try (vm_compute; lia).

(** ** Order of the edits and of the insertions *)

(** C4, as stated, fails on the insertions: with two statements that each
    trigger an insertion, the inserted lines do not come out in the order
    in which the statements were visited. *)
Lemma insertions_not_in_discovery_order :
  importInsertions (planFor Samples.createSourceFile Samples.twoIndents defaultFileName)
  = [constructImport; "  " ++ constructImport] /\
  rewriteImports Samples.createSourceFile Samples.twoIndents defaultFileName <>
  joinLines
    (importInsertions
       (planFor Samples.createSourceFile Samples.twoIndents defaultFileName)) ++
  applyReplacements
    (editsFor Samples.createSourceFile Samples.twoIndents defaultFileName)
    Samples.twoIndents.
Proof.
  split; [reflexivity|].
  intros H. vm_compute in H. discriminate H.
Qed.

(** C4, amended: the edit list handed to the replacement loop holds the
    planned replacements sorted by descending start offset; the output is
    the inserted lines followed by the source text with those replacements
    applied (so every replacement is made before any insertion); and the
    inserted lines stand at the top of the output in the reverse of
    discovery order, the last one discovered first. *)
Theorem edits_descending_insertions_prepended
        (createSourceFile : string -> string -> SourceFile)
        (sourceText fileName : string) :
  StronglySorted
    (fun a b => getStart (original b) <= getStart (original a))
    (editsFor createSourceFile sourceText fileName) /\
  Permutation (replacements (planFor createSourceFile sourceText fileName))
              (editsFor createSourceFile sourceText fileName) /\
  rewriteImports createSourceFile sourceText fileName =
  joinLines (rev (importInsertions (planFor createSourceFile sourceText fileName))) ++
  applyReplacements (editsFor createSourceFile sourceText fileName) sourceText.
Proof.
  split; [apply sortReplacements_sorted|].
  split; [apply sortReplacements_perm|].
  rewrite rewriteImports_phases. now rewrite insertedLines_rev.
Qed.

(** ** Replacements and the quote delimiters *)

(** Where a scheduled replacement lands in the output. *)
Lemma replaced_literal_in_output
        (createSourceFile : string -> string -> SourceFile)
        (sourceText fileName : string) (r : Replacement) :
  wellPositioned sourceText (createSourceFile fileName sourceText) ->
  In r (replacements (planFor createSourceFile sourceText fileName)) ->
  exists later earlier,
    editsFor createSourceFile sourceText fileName = (later ++ r :: earlier)%list /\
    rewriteImports createSourceFile sourceText fileName =
      insertedLines (importInsertions (planFor createSourceFile sourceText fileName)) ++
      applyReplacements earlier (JS.take (getStart (original r)) sourceText) ++
      JS.substring sourceText (getStart (original r)) (getStart (original r) + 1) ++
      updatedLocation r ++
      JS.substring sourceText (getEnd (original r) - 1) (getEnd (original r)) ++
      JS.drop (getEnd (original r)) (applyReplacements later sourceText).
Proof.
  intros W Hr.
  assert (He : In r (editsFor createSourceFile sourceText fileName)).
  { unfold editsFor. now rewrite <- sortReplacements_perm. }
  destruct (in_split _ _ He) as [later [earlier E]].
  exists later, earlier. split; [exact E|].
  pose proof (edits_inBounds _ _ _ W) as B.
  pose proof (edits_chain _ _ _ W) as C.
  rewrite E in B, C.
  rewrite rewriteImports_phases, E. f_equal.
  now apply literal_replaced.
Qed.

(** C5, as stated, fails on a literal that is not closed: for
    [import '@aws-cdk/core] the range of the literal ends with the last
    character of the path, the replacement leaves that character in
    place, and the output is [import 'aws-cdk-libe]: what is replaced is
    not the whole path, and no quote follows the new path. *)
Lemma unterminated_literal_keeps_last_character :
  wellPositioned Samples.unterminatedCore
    (Samples.createSourceFile defaultFileName Samples.unterminatedCore) /\
  replacements
    (planFor Samples.createSourceFile Samples.unterminatedCore defaultFileName)
  = [{| original := Samples.literal 6 7 21 "@aws-cdk/core";
        updatedLocation := "aws-cdk-lib" |}] /\
  JS.substring Samples.unterminatedCore 7 (7 + 1) = "'" /\
  JS.substring Samples.unterminatedCore (7 + 1) (21 - 1) = "@aws-cdk/cor" /\
  JS.substring Samples.unterminatedCore (21 - 1) 21 = "e" /\
  rewriteImports Samples.createSourceFile Samples.unterminatedCore defaultFileName
  = "import 'aws-cdk-libe" /\
  rewriteImports Samples.createSourceFile Samples.unterminatedCore defaultFileName
  <> "import 'aws-cdk-lib".
Proof.
  split; [by_positions|]. repeat split. discriminate.
Qed.

(** C5, amended: for every scheduled replacement whose literal starts
    and ends with the same quote character (a literal that is closed),
    the source text is made of the text before the literal, the quote,
    what lies between the two quotes, the quote and the text after the
    literal; the output is made of the inserted lines, the (patched) text
    before the literal, the same quote, the new path, the same quote, and
    the (patched) text after the literal.  The replacement thus covers
    exactly what lies between the two quotes, and the quote character
    around the new path is the one of the input. *)
Theorem replacement_keeps_delimiters
        (createSourceFile : string -> string -> SourceFile)
        (sourceText fileName : string) (r : Replacement) (quote : string) :
  wellPositioned sourceText (createSourceFile fileName sourceText) ->
  In r (replacements (planFor createSourceFile sourceText fileName)) ->
  quote = "'" \/ quote = DQUOTE ->
  JS.substring sourceText (getStart (original r)) (getStart (original r) + 1)
  = quote ->
  JS.substring sourceText (getEnd (original r) - 1) (getEnd (original r))
  = quote ->
  exists later earlier,
    editsFor createSourceFile sourceText fileName = (later ++ r :: earlier)%list /\
    sourceText =
      JS.take (getStart (original r)) sourceText ++
      quote ++
      JS.substring sourceText (getStart (original r) + 1) (getEnd (original r) - 1) ++
      quote ++
      JS.drop (getEnd (original r)) sourceText /\
    rewriteImports createSourceFile sourceText fileName =
      insertedLines (importInsertions (planFor createSourceFile sourceText fileName)) ++
      applyReplacements earlier (JS.take (getStart (original r)) sourceText) ++
      quote ++
      updatedLocation r ++
      quote ++
      JS.drop (getEnd (original r)) (applyReplacements later sourceText).
Proof.
  intros W Hr _ Q1 Q2.
  destruct (replaced_literal_in_output _ _ _ r W Hr) as [later [earlier [E O]]].
  exists later, earlier. split; [exact E|]. split.
  - pose proof (planned_inBounds _ _ _ W) as B.
    rewrite Forall_forall in B. destruct (B r Hr) as [B1 B2].
    rewrite <- Q1 at 1. rewrite <- Q2 at 1. now apply split5.
  - rewrite O. now rewrite Q1, Q2.
Qed.

Lemma replacement_keeps_delimiters_witness :
  exists later earlier,
    editsFor Samples.createSourceFile Samples.twoIndents defaultFileName =
      (later ++
       {| original := Samples.literal 25 26 41 "@aws-cdk/core";
          updatedLocation := "aws-cdk-lib" |} :: earlier)%list /\
    Samples.twoIndents =
      JS.take 26 Samples.twoIndents ++
      "'" ++
      JS.substring Samples.twoIndents (26 + 1) (41 - 1) ++
      "'" ++
      JS.drop 41 Samples.twoIndents /\
    rewriteImports Samples.createSourceFile Samples.twoIndents defaultFileName =
      insertedLines
        (importInsertions
           (planFor Samples.createSourceFile Samples.twoIndents defaultFileName)) ++
      applyReplacements earlier (JS.take 26 Samples.twoIndents) ++
      "'" ++
      "aws-cdk-lib" ++
      "'" ++
      JS.drop 41 (applyReplacements later Samples.twoIndents).
Proof.
  apply (replacement_keeps_delimiters
           Samples.createSourceFile Samples.twoIndents defaultFileName
           {| original := Samples.literal 25 26 41 "@aws-cdk/core";
              updatedLocation := "aws-cdk-lib" |} "'").
  - by_positions.
  - vm_compute. left. reflexivity.
  - left. reflexivity.
  - reflexivity.
  - reflexivity.
Defined.

(** ** The relocation of [Construct] *)

Lemma includes_In (xs : list string) (x : string) :
  JS.includes xs x = true <-> In x xs.
Proof. apply has_In. Qed.

Lemma relocatesConstruct_iff (m : ModuleSpecifier) :
  relocatesConstruct m = true <->
  text (module m) = "@aws-cdk/core" /\
  exists names, symbols m = Some names /\ In "Construct" names.
Proof.
  unfold relocatesConstruct. rewrite andb_true_iff, String.eqb_eq.
  destruct (symbols m) as [names|].
  - rewrite includes_In. split.
    + intros [H1 H2]. split; [exact H1 | now exists names].
    + intros [H1 [names' [E H2]]]. injection E as <-. now split.
  - split; [intros [_ H]; discriminate H | intros [_ [names [E _]]]; discriminate E].
Qed.

Lemma plannedInsertion_none (sourceText : string) (stmts : list Node) :
  (forall n m, In n stmts -> getModuleSpecifier n = Some m ->
               relocatesConstruct m = false) ->
  flat_map (plannedInsertion sourceText) stmts = [].
Proof.
  induction stmts as [|n stmts IH]; intros H; simpl; [reflexivity|].
  rewrite IH by (intros n' m' Hn; apply H; now right).
  unfold plannedInsertion.
  destruct (getModuleSpecifier n) as [m|] eqn:E; [|reflexivity].
  now rewrite (H n m (or_introl eq_refl) E).
Qed.

Lemma joinLines_app (a b : list string) :
  joinLines (a ++ b) = joinLines a ++ joinLines b.
Proof.
  induction a as [|x a IH]; simpl; [reflexivity|].
  now rewrite IH, !append_assoc.
Qed.




(** C9: a namespace import of ['@aws-cdk/core'] whose alias is
    [Construct] is recorded with the single symbol [Construct], so its
    visit pushes the import of [Construct] from ['constructs'], and the
    output carries that line among the inserted ones. *)
Theorem namespace_alias_Construct_inserts
        (createSourceFile : string -> string -> SourceFile)
        (sourceText fileName : string)
        (before after : list Node) (node literal : Node)
        (p s e : nat) (default : option string) :
  statements (createSourceFile fileName sourceText) = (before ++ node :: after)%list ->
  node = mkNode p s e
           (ImportDeclaration
              (Some {| clauseName := default;
                       namedBindings := Some (NamespaceImport "Construct") |})
              literal) ->
  isStringLiteral literal = true ->
  text literal = "@aws-cdk/core" ->
  getModuleSpecifier node =
    Some {| module := literal; type := namespace; symbols := Some ["Construct"] |} /\
  importInsertions (planFor createSourceFile sourceText fileName) =
    (flat_map (plannedInsertion sourceText) before ++
     [(getIndent sourceText node ++ constructImport)%string] ++
     flat_map (plannedInsertion sourceText) after)%list /\
  rewriteImports createSourceFile sourceText fileName =
    joinLines (rev (flat_map (plannedInsertion sourceText) after)) ++
    (getIndent sourceText node ++ constructImport) ++ LF ++
    joinLines (rev (flat_map (plannedInsertion sourceText) before)) ++
    applyReplacements (editsFor createSourceFile sourceText fileName) sourceText.
Proof.
  intros Hs Hn Hl Ht.
  assert (G : getModuleSpecifier node =
              Some {| module := literal; type := namespace;
                      symbols := Some ["Construct"] |}).
  { subst node. destruct literal as [lp ls le [ | | | | | | | | ]];
      try discriminate Hl. reflexivity. }
  assert (I : importInsertions (planFor createSourceFile sourceText fileName) =
              (flat_map (plannedInsertion sourceText) before ++
               [(getIndent sourceText node ++ constructImport)%string] ++
               flat_map (plannedInsertion sourceText) after)%list).
  { rewrite planFor_importInsertions, Hs, flat_map_app. simpl. f_equal. f_equal.
    unfold plannedInsertion. rewrite G. unfold relocatesConstruct. simpl.
    now rewrite Ht. }
  repeat split; [exact G | exact I |].
  rewrite rewriteImports_phases, I, insertedLines_rev.
  rewrite !rev_app_distr, !joinLines_app. simpl.
  now rewrite !append_assoc.
Qed.

Lemma namespace_alias_Construct_inserts_witness :
  getModuleSpecifier Samples.namespaceConstructStatement =
    Some {| module := Samples.literal 26 27 42 "@aws-cdk/core";
            type := namespace; symbols := Some ["Construct"] |} /\
  importInsertions
    (planFor Samples.createSourceFile Samples.namespaceConstruct defaultFileName) =
    (flat_map (plannedInsertion Samples.namespaceConstruct) [] ++
     [(getIndent Samples.namespaceConstruct Samples.namespaceConstructStatement
       ++ constructImport)%string] ++
     flat_map (plannedInsertion Samples.namespaceConstruct) [])%list /\
  rewriteImports Samples.createSourceFile Samples.namespaceConstruct defaultFileName =
    joinLines (rev (flat_map (plannedInsertion Samples.namespaceConstruct) [])) ++
    (getIndent Samples.namespaceConstruct Samples.namespaceConstructStatement
     ++ constructImport) ++ LF ++
    joinLines (rev (flat_map (plannedInsertion Samples.namespaceConstruct) [])) ++
    applyReplacements
      (editsFor Samples.createSourceFile Samples.namespaceConstruct defaultFileName)
      Samples.namespaceConstruct.
Proof.
  apply (namespace_alias_Construct_inserts
           Samples.createSourceFile Samples.namespaceConstruct defaultFileName
           [] [] Samples.namespaceConstructStatement
           (Samples.literal 26 27 42 "@aws-cdk/core") 0 0 43 None).
  - reflexivity.
  - reflexivity.
  - reflexivity.
  - reflexivity.
Defined.

(** ** Recorded symbols of a named import *)

(** C7, as stated, fails: for [import { Construct as Base } from
    '@aws-cdk/core'] the matcher records the local alias [Base], not the
    exported name [Construct], and no insertion is planned. *)
Lemma renamed_import_recorded_under_alias :
  map importedName
      [{| propertyName := Some "Construct"; name := "Base" |}] = ["Construct"] /\
  option_map symbols (getModuleSpecifier Samples.renamedConstructStatement)
  = Some (Some ["Base"]) /\
  option_map symbols (getModuleSpecifier Samples.renamedConstructStatement)
  <> Some (Some ["Construct"]) /\
  plannedInsertion "import { Construct as Base } from '@aws-cdk/core';"
                   Samples.renamedConstructStatement = [].
Proof. repeat split. discriminate. Qed.

(** C7, amended: for a named import the matcher records the declared
    (local) name of every element; these are the exported names exactly
    for the elements without a rename.  The relocation of [Construct] is
    keyed on the declared names: it fires when the path is
    ['@aws-cdk/core'] and some element is declared as [Construct]. *)
Theorem named_import_records_declared_names
        (p s e lp ls le : nat) (default : option string)
        (elements : list ImportSpecifier) (path : string) :
  getModuleSpecifier
    (mkNode p s e
       (ImportDeclaration
          (Some {| clauseName := default;
                   namedBindings := Some (NamedImports elements) |})
          (mkNode lp ls le (StringLiteral path))))
  = Some {| module := mkNode lp ls le (StringLiteral path);
            type := named;
            symbols := Some (map name elements) |} /\
  ((forall element, In element elements -> propertyName element = None) ->
   map name elements = map importedName elements) /\
  (relocatesConstruct
     {| module := mkNode lp ls le (StringLiteral path);
        type := named;
        symbols := Some (map name elements) |} = true <->
   path = "@aws-cdk/core" /\
   exists element, In element elements /\ name element = "Construct").
Proof.
  split; [reflexivity|]. split.
  - intros H. apply map_ext_in. intros el Hel. unfold importedName.
    now rewrite (H el Hel).
  - rewrite relocatesConstruct_iff. simpl. split.
    + intros [H1 [names [E H2]]]. injection E as <-. split; [exact H1|].
      apply in_map_iff in H2. destruct H2 as [el [H2 H3]]. now exists el.
    + intros [H1 [el [H2 H3]]]. split; [exact H1|].
      exists (map name elements). split; [reflexivity|].
      apply in_map_iff. now exists el.
Qed.

(** ** Stretches of the source no replacement reaches into *)

Lemma chain_split (rs : list Replacement) (a b : nat) :
  descendingChain rs ->
  Forall (fun r => getStart (original r) + 2 <= getEnd (original r)) rs ->
  Forall (fun r => getEnd (original r) <= a \/ b <= getStart (original r)) rs ->
  exists later earlier,
    rs = (later ++ earlier)%list /\
    Forall (fun r => b <= getStart (original r)) later /\
    Forall (fun r => getEnd (original r) <= a) earlier.
Proof.
  unfold descendingChain.
  induction rs as [|x rs IH]; intros C N D.
  - exists [], []. repeat split; constructor.
  - apply StronglySorted_inv in C. destruct C as [C F].
    inversion N as [|? ? Nx N']; subst. inversion D as [|? ? Dx D']; subst.
    destruct (le_lt_dec b (getStart (original x))) as [L | G].
    + destruct (IH C N' D') as [later [earlier [E [Fl Fe]]]].
      exists (x :: later), earlier. subst rs.
      repeat split; [now constructor | assumption].
    + exists [], (x :: rs). repeat split; [constructor|].
      assert (Hx : getEnd (original x) <= a) by lia.
      constructor; [exact Hx|].
      rewrite Forall_forall in *. intros y Hy.
      specialize (F y Hy). cbv beta in F. lia.
Qed.

(** A stretch [a, b) of the source that lies outside every replaced
    literal is found unchanged in the output. *)
Lemma untouched_region_in_output
      (createSourceFile : string -> string -> SourceFile)
      (sourceText fileName : string) (a b : nat) :
  wellPositioned sourceText (createSourceFile fileName sourceText) ->
  a <= b -> b <= String.length sourceText ->
  Forall (fun r => getEnd (original r) <= a \/ b <= getStart (original r))
         (replacements (planFor createSourceFile sourceText fileName)) ->
  exists later earlier,
    editsFor createSourceFile sourceText fileName = (later ++ earlier)%list /\
    Forall (fun r => b <= getStart (original r)) later /\
    Forall (fun r => getEnd (original r) <= a) earlier /\
    rewriteImports createSourceFile sourceText fileName =
      insertedLines (importInsertions (planFor createSourceFile sourceText fileName)) ++
      applyReplacements earlier (JS.take a sourceText) ++
      JS.substring sourceText a b ++
      JS.drop b (applyReplacements later sourceText).
Proof.
  intros W ab bt D.
  pose proof (edits_inBounds _ _ _ W) as B.
  pose proof (edits_chain _ _ _ W) as C.
  assert (D' : Forall (fun r => getEnd (original r) <= a \/ b <= getStart (original r))
                      (editsFor createSourceFile sourceText fileName)).
  { unfold editsFor. now rewrite <- sortReplacements_perm. }
  destruct (chain_split _ a b C) as [later [earlier [E [Fl Fe]]]].
  - eapply Forall_impl; [|exact B]. intros r [H _]. exact H.
  - exact D'.
  - exists later, earlier. repeat split; try assumption.
    rewrite rewriteImports_phases, E. f_equal.
    rewrite E in B, C. apply descendingChain_app in C. destruct C as [Cl [Ce _]].
    apply Forall_app in B. destruct B as [Bl Be].
    apply region_kept; try assumption.
    rewrite Forall_forall in *. intros r Hr.
    specialize (Be r Hr). specialize (Fe r Hr). cbv beta in *.
    unfold inBounds in *. rewrite length_take. lia.
Qed.

(** ** Malformed module-loading calls *)

Lemma getModuleSpecifier_malformed_call
      (p s e : nat) (callee : Node) (args : list Node) :
  (List.length args <> 1 \/ exists a, args = [a] /\ isStringLiteral a = false) ->
  getModuleSpecifier (mkNode p s e (CallExpression callee args)) = None.
Proof.
  intros H. simpl. destruct (isRequireIdentifier callee); [|reflexivity].
  destruct H as [H | [a [-> H]]].
  - destruct (Nat.eqb_spec (List.length args) 1); [contradiction | reflexivity].
  - simpl. now rewrite H.
Qed.

(** C8: a statement that is a call of [require] with no argument, with
    more than one argument, or with a single argument that is not a
    string literal is not recognised as an import; visiting it leaves the
    plan as it is; the rewrite returns, and the text of the statement is
    found unchanged in the output. *)
Theorem malformed_require_left_alone
        (createSourceFile : string -> string -> SourceFile)
        (sourceText fileName : string)
        (node call callee : Node) (args : list Node) :
  In node (statements (createSourceFile fileName sourceText)) ->
  node = call \/ kind node = ExpressionStatement call ->
  kind call = CallExpression callee args ->
  isRequireIdentifier callee = true ->
  (List.length args <> 1 \/ exists a, args = [a] /\ isStringLiteral a = false) ->
  wellPositioned sourceText (createSourceFile fileName sourceText) ->
  pos node <= getEnd node ->
  getEnd node <= String.length sourceText ->
  (forall literal,
      In literal (moduleLiterals (createSourceFile fileName sourceText)) ->
      getEnd literal <= pos node \/ getEnd node <= getStart literal) ->
  getModuleSpecifier node = None /\
  (forall plan, visitor sourceText plan node = plan) /\
  exists later earlier,
    editsFor createSourceFile sourceText fileName = (later ++ earlier)%list /\
    Forall (fun r => getEnd node <= getStart (original r)) later /\
    Forall (fun r => getEnd (original r) <= pos node) earlier /\
    rewriteImports createSourceFile sourceText fileName =
      insertedLines (importInsertions (planFor createSourceFile sourceText fileName)) ++
      applyReplacements earlier (JS.take (pos node) sourceText) ++
      JS.substring sourceText (pos node) (getEnd node) ++
      JS.drop (getEnd node) (applyReplacements later sourceText).
Proof.
  intros Hin Hshape Hcall Hreq Hargs W Hspan Hlen Hout.
  assert (G : getModuleSpecifier node = None).
  { destruct call as [cp cs ce ck]. simpl in Hcall. subst ck.
    destruct Hshape as [-> | Hk].
    - now apply getModuleSpecifier_malformed_call.
    - destruct node as [np ns ne nk]. simpl in Hk. subst nk.
      change (getModuleSpecifier (mkNode cp cs ce (CallExpression callee args)) = None).
      now apply getModuleSpecifier_malformed_call. }
  split; [exact G|]. split.
  - intros plan. unfold visitor. now rewrite G.
  - apply untouched_region_in_output; try assumption.
    rewrite planFor_replacements, Forall_forall. intros r Hr.
    apply plannedReplacement_literal in Hr. destruct Hr as [Hr _].
    now apply Hout.
Qed.

Lemma malformed_require_left_alone_witness :
  getModuleSpecifier Samples.emptyRequireStatement = None /\
  (forall plan, visitor Samples.emptyRequire plan Samples.emptyRequireStatement = plan) /\
  exists later earlier,
    editsFor Samples.createSourceFile Samples.emptyRequire defaultFileName
    = (later ++ earlier)%list /\
    Forall (fun r => getEnd Samples.emptyRequireStatement <= getStart (original r))
           later /\
    Forall (fun r => getEnd (original r) <= pos Samples.emptyRequireStatement)
           earlier /\
    rewriteImports Samples.createSourceFile Samples.emptyRequire defaultFileName =
      insertedLines
        (importInsertions
           (planFor Samples.createSourceFile Samples.emptyRequire defaultFileName)) ++
      applyReplacements earlier
        (JS.take (pos Samples.emptyRequireStatement) Samples.emptyRequire) ++
      JS.substring Samples.emptyRequire
        (pos Samples.emptyRequireStatement) (getEnd Samples.emptyRequireStatement) ++
      JS.drop (getEnd Samples.emptyRequireStatement)
        (applyReplacements later Samples.emptyRequire).
Proof.
  apply (malformed_require_left_alone
           Samples.createSourceFile Samples.emptyRequire defaultFileName
           Samples.emptyRequireStatement
           (mkNode 0 0 9 (CallExpression (mkNode 0 0 7 (Identifier "require")) []))
           (mkNode 0 0 7 (Identifier "require")) []).
  - simpl. left. reflexivity.
  - right. reflexivity.
  - reflexivity.
  - reflexivity.
  - left. simpl. lia.
  - by_positions.
  - simpl. lia.
  - vm_compute. lia.
  - intros literal H. vm_compute in H. destruct H as [<- | []]. vm_compute. lia.
Defined.

(** ** Exempted and passthrough paths *)

Lemma pairs_with_middle {A : Type} (R : A -> A -> Prop) (l1 l2 : list A) (x : A) :
  (forall a b, R a b -> R b a) ->
  ForallOrdPairs R (l1 ++ x :: l2) ->
  Forall (fun y => R y x) (l1 ++ l2).
Proof.
  intros Rsym. induction l1 as [|a l1 IH]; simpl; intros P.
  - inversion P as [|? ? F _]; subst.
    eapply Forall_impl; [|exact F]. intros y. apply Rsym.
  - inversion P as [|? ? F P']; subst. constructor; [|now apply IH].
    rewrite Forall_forall in F. apply F. apply in_elt.
Qed.

Lemma moduleLiteral_In (stmts : list Node) (node : Node) (m : ModuleSpecifier) :
  In node stmts -> getModuleSpecifier node = Some m ->
  In (module m) (flat_map moduleLiteral stmts).
Proof.
  intros Hn Hm. apply in_flat_map. exists node. split; [exact Hn|].
  unfold moduleLiteral. rewrite Hm. now left.
Qed.

(** The literal of a statement that schedules no replacement is apart
    from every replaced literal. *)
Lemma unplanned_literal_apart (stmts : list Node) (node : Node) (m : ModuleSpecifier) :
  ForallOrdPairs disjoint (flat_map moduleLiteral stmts) ->
  In node stmts ->
  getModuleSpecifier node = Some m ->
  updatedLocationOf (text (module m)) = None ->
  Forall (fun r => disjoint (original r) (module m))
         (flat_map plannedReplacement stmts).
Proof.
  intros P Hn Hm Hu.
  destruct (in_split _ _ Hn) as [before [after ->]].
  rewrite flat_map_app in *. simpl in *.
  assert (L : moduleLiteral node = [module m])
    by (unfold moduleLiteral; now rewrite Hm).
  assert (E : plannedReplacement node = [])
    by (unfold plannedReplacement; now rewrite Hm, Hu).
  rewrite L in P. rewrite E. simpl in *.
  apply pairs_with_middle in P; [|intros a b; apply disjoint_sym].
  rewrite Forall_forall in *. intros r Hr. apply P.
  apply in_app_or in Hr. apply in_or_app.
  destruct Hr as [Hr | Hr]; [left | right];
    now apply plannedReplacement_literal in Hr.
Qed.

(** C6: the code breaks the claim on a passthrough path spelled with an
    escape.  For [import '@aws-cdk/\x61ssert';] the recognised path is
    ['@aws-cdk/assert'], the rule table returns it unchanged, and the
    replacement loop writes it between the quotes in place of the
    original spelling: the text of the literal in the output is not the
    text of the literal in the input. *)
Lemma escaped_passthrough_respelled :
  map text
      (moduleLiterals
         (Samples.createSourceFile defaultFileName Samples.escapedAssert))
  = ["@aws-cdk/assert"] /\
  updatedLocationOf "@aws-cdk/assert" = Some "@aws-cdk/assert" /\
  wellPositioned Samples.escapedAssert
    (Samples.createSourceFile defaultFileName Samples.escapedAssert) /\
  JS.substring Samples.escapedAssert 7 27 = "'@aws-cdk/\x61ssert'" /\
  rewriteImports Samples.createSourceFile Samples.escapedAssert defaultFileName
  = "import '@aws-cdk/assert';" /\
  rewriteImports Samples.createSourceFile Samples.escapedAssert defaultFileName
  <> Samples.escapedAssert.
Proof.
  split; [reflexivity|]. split; [reflexivity|]. split; [by_positions|].
  repeat split. discriminate.
Qed.

(** X18: a recognised literal for which the rule table has no new path
    (a path outside the deprecated prefix, or the exempted one) stands in
    the output exactly as it is spelled in the source, between the
    (patched) text before it and the (patched) text after it; so does a
    literal whose path the rule table returns unchanged, when the path is
    spelled out between the delimiters. *)
Theorem unrewritten_literal_verbatim
        (createSourceFile : string -> string -> SourceFile)
        (sourceText fileName : string) (node : Node) (m : ModuleSpecifier) :
  In node (statements (createSourceFile fileName sourceText)) ->
  getModuleSpecifier node = Some m ->
  wellPositioned sourceText (createSourceFile fileName sourceText) ->
  updatedLocationOf (text (module m)) = None \/
  (updatedLocationOf (text (module m)) = Some (text (module m)) /\
   JS.substring sourceText (getStart (module m) + 1) (getEnd (module m) - 1)
   = text (module m)) ->
  exists later earlier,
    (editsFor createSourceFile sourceText fileName = (later ++ earlier)%list \/
     editsFor createSourceFile sourceText fileName =
       (later ++ {| original := module m; updatedLocation := text (module m) |}
              :: earlier)%list) /\
    rewriteImports createSourceFile sourceText fileName =
      insertedLines (importInsertions (planFor createSourceFile sourceText fileName)) ++
      applyReplacements earlier (JS.take (getStart (module m)) sourceText) ++
      JS.substring sourceText (getStart (module m)) (getEnd (module m)) ++
      JS.drop (getEnd (module m)) (applyReplacements later sourceText).
Proof.
  intros Hn Hm W Hp.
  assert (B : inBounds sourceText (module m)).
  { destruct W as [B _]. rewrite Forall_forall in B. apply B.
    now apply (moduleLiteral_In _ node). }
  destruct B as [B1 B2].
  destruct Hp as [U | [U Hraw]].
  - destruct (untouched_region_in_output createSourceFile sourceText fileName
                (getStart (module m)) (getEnd (module m)) W)
      as [later [earlier [E [_ [_ O]]]]]; try lia.
    + rewrite planFor_replacements. destruct W as [_ P].
      eapply Forall_impl;
        [|exact (unplanned_literal_apart _ node m P Hn Hm U)].
      intros r D. exact D.
    + exists later, earlier. split; [left; exact E | exact O].
  - set (r := {| original := module m; updatedLocation := text (module m) |}).
    assert (Hr : In r (replacements (planFor createSourceFile sourceText fileName))).
    { rewrite planFor_replacements. apply in_flat_map. exists node.
      split; [exact Hn|]. unfold plannedReplacement. rewrite Hm, U. now left. }
    destruct (replaced_literal_in_output _ _ _ r W Hr) as [later [earlier [E O]]].
    exists later, earlier. split; [right; exact E|].
    rewrite O. simpl. do 2 f_equal.
    rewrite (substring_split sourceText (getStart (module m))
               (getStart (module m) + 1) (getEnd (module m))) by lia.
    rewrite (substring_split sourceText (getStart (module m) + 1)
               (getEnd (module m) - 1) (getEnd (module m))) by lia.
    rewrite Hraw. now rewrite !append_assoc.
Qed.

Lemma unrewritten_literal_verbatim_witness :
  (exists later earlier,
     (editsFor Samples.createSourceFile Samples.assertDiffIam defaultFileName
      = (later ++ earlier)%list \/
      editsFor Samples.createSourceFile Samples.assertDiffIam defaultFileName =
        (later ++ {| original := Samples.literal 64 65 95 "@aws-cdk/cloudformation-diff";
                     updatedLocation := "@aws-cdk/cloudformation-diff" |}
               :: earlier)%list) /\
     rewriteImports Samples.createSourceFile Samples.assertDiffIam defaultFileName =
       insertedLines
         (importInsertions
            (planFor Samples.createSourceFile Samples.assertDiffIam defaultFileName)) ++
       applyReplacements earlier (JS.take 65 Samples.assertDiffIam) ++
       JS.substring Samples.assertDiffIam 65 95 ++
       JS.drop 95 (applyReplacements later Samples.assertDiffIam)) /\
  (exists later earlier,
     (editsFor Samples.createSourceFile Samples.assertDiffIam defaultFileName
      = (later ++ earlier)%list \/
      editsFor Samples.createSourceFile Samples.assertDiffIam defaultFileName =
        (later ++ {| original := Samples.literal 23 24 41 "@aws-cdk/assert";
                     updatedLocation := "@aws-cdk/assert" |}
               :: earlier)%list) /\
     rewriteImports Samples.createSourceFile Samples.assertDiffIam defaultFileName =
       insertedLines
         (importInsertions
            (planFor Samples.createSourceFile Samples.assertDiffIam defaultFileName)) ++
       applyReplacements earlier (JS.take 24 Samples.assertDiffIam) ++
       JS.substring Samples.assertDiffIam 24 41 ++
       JS.drop 41 (applyReplacements later Samples.assertDiffIam)).
Proof.
  split.
  - apply (unrewritten_literal_verbatim
             Samples.createSourceFile Samples.assertDiffIam defaultFileName
             (mkNode 42 43 96
                (ImportDeclaration (Samples.namespaceClause "diff")
                   (Samples.literal 64 65 95 "@aws-cdk/cloudformation-diff")))
             {| module := Samples.literal 64 65 95 "@aws-cdk/cloudformation-diff";
                type := namespace; symbols := Some ["diff"] |}).
    + simpl. right. left. reflexivity.
    + reflexivity.
    + by_positions.
    + left. reflexivity.
  - apply (unrewritten_literal_verbatim
             Samples.createSourceFile Samples.assertDiffIam defaultFileName
             (mkNode 0 0 42
                (ImportDeclaration (Samples.namespaceClause "assert")
                   (Samples.literal 23 24 41 "@aws-cdk/assert")))
             {| module := Samples.literal 23 24 41 "@aws-cdk/assert";
                type := namespace; symbols := Some ["assert"] |}).
    + simpl. left. reflexivity.
    + reflexivity.
    + by_positions.
    + right. split; reflexivity.
Defined.

(** ** The two versions of the rewriter *)

Section Versions.

Lemma sort_map {A B : Type} (f : A -> B)
      (cmpA : A -> A -> Z) (cmpB : B -> B -> Z) (l : list A) :
  (forall x y, cmpA x y = cmpB (f x) (f y)) ->
  map f (JS.sort cmpA l) = JS.sort cmpB (map f l).
Proof.
  intros H. induction l as [|x l IH]; simpl; [reflexivity|].
  rewrite <- IH. generalize (JS.sort cmpA l) as sorted.
  induction sorted as [|y sorted IHs]; simpl; [reflexivity|].
  rewrite <- H. destruct (cmpA x y <=? 0)%Z; simpl; [reflexivity|].
  now rewrite IHs.
Qed.

Lemma v1_sortReplacements (rs : list V1.Replacement) :
  map withoutImportNode (V1.sortReplacements rs) =
  sortReplacements (map withoutImportNode rs).
Proof. apply sort_map. reflexivity. Qed.

Lemma v1_applyReplacements (rs : list V1.Replacement) (t : string) :
  fold_left V1.applyReplacement rs t =
  applyReplacements (map withoutImportNode rs) t.
Proof.
  unfold applyReplacements. revert t.
  induction rs as [|r rs IH]; intros t; simpl; [reflexivity|]. apply IH.
Qed.

(** On a call expression the two matchers find the same literal. *)
Lemma v1_matcher_call (p s e : nat) (callee : Node) (args : list Node) :
  V1.getModuleSpecifier (mkNode p s e (CallExpression callee args)) =
  option_map module (getModuleSpecifier (mkNode p s e (CallExpression callee args))).
Proof.
  simpl. destruct (isRequireIdentifier callee && (List.length args =? 1)%nat);
    [|reflexivity].
  destruct args as [|a args]; [reflexivity|].
  now destruct (isStringLiteral a).
Qed.

(** The matchers differ on one shape only: an import declaration whose
    clause has neither named nor namespace bindings. *)
Lemma v1_matcher (node : Node) :
  V1.getModuleSpecifier node = option_map module (getModuleSpecifier node) \/
  exists literal,
    V1.getModuleSpecifier node = Some literal /\
    getModuleSpecifier node = None /\
    defaultOnlyPath node = Some (text literal).
Proof.
  destruct node as [p s e k]. destruct k as
      [t | i | callee args | l r | x | clause spec | n ref | x | ];
    try (left; reflexivity).
  - left. apply v1_matcher_call.
  - destruct x as [xp xs xe [ | | callee args | | | | | | ]];
      try (left; reflexivity).
    left. apply (v1_matcher_call xp xs xe callee args).
  - destruct spec as [lp ls le [t | | | l r | | | | | ]];
      try (left; reflexivity).
    + destruct clause as [[default [[elements | alias] | ]] | ];
        try (left; reflexivity).
      right. exists (mkNode lp ls le (StringLiteral t)). repeat split.
    + destruct r as [rp rs re [ | | callee args | | | | | | ]];
        try (left; reflexivity).
      left. apply (v1_matcher_call rp rs re callee args).
  - left. simpl. destruct (kind ref); try reflexivity.
    now destruct (isStringLiteral expression).
Qed.

Lemma v1_visitor_replacements (st : V1.VisitorState) (node : Node) :
  (forall path, defaultOnlyPath node = Some path -> updatedLocationOf path = None) ->
  map withoutImportNode (V1.replacements (V1.visitor st node)) =
  (map withoutImportNode (V1.replacements st) ++ plannedReplacement node)%list.
Proof.
  intros H. unfold V1.visitor, plannedReplacement.
  destruct (v1_matcher node) as [E | [literal [E1 [E2 E3]]]].
  - rewrite E. destruct (getModuleSpecifier node) as [m|]; simpl;
      [|now rewrite app_nil_r].
    destruct (updatedLocationOf (text (module m))); [|now rewrite app_nil_r].
    destruct (text (module m) =? "@aws-cdk/core"); simpl;
      now rewrite map_app.
  - rewrite E1, E2, (H _ E3). now rewrite app_nil_r.
Qed.

Lemma v1_fold_replacements (stmts : list Node) (st : V1.VisitorState) :
  (forall n path, In n stmts -> defaultOnlyPath n = Some path ->
                  updatedLocationOf path = None) ->
  map withoutImportNode (V1.replacements (fold_left V1.visitor stmts st)) =
  (map withoutImportNode (V1.replacements st) ++
   flat_map plannedReplacement stmts)%list.
Proof.
  revert st; induction stmts as [|n stmts IH]; intros st H; simpl.
  - now rewrite app_nil_r.
  - rewrite IH by (intros n' path Hn; apply H; now right).
    rewrite v1_visitor_replacements by (intros path; apply H; now left).
    now rewrite <- app_assoc.
Qed.

End Versions.

(** C10, as stated, fails: the source [import cdk from '@aws-cdk/core';]
    binds no symbol named [Construct], the earlier version rewrites its
    path and the later version leaves it alone. *)
Lemma versions_differ_on_default_import :
  (forall n m,
      In n (statements (Samples.createSourceFile defaultFileName Samples.defaultImport)) ->
      getModuleSpecifier n = Some m -> relocatesConstruct m = false) /\
  (forall n,
      In n (statements (Samples.createSourceFile defaultFileName Samples.defaultImport)) ->
      JS.includes (V1.namedImports n) "Construct" = false /\
      V1.importNamespaceQualifier n = None) /\
  V1.rewriteImports Samples.createSourceFile Samples.defaultImport defaultFileName
  = "import cdk from 'aws-cdk-lib';" /\
  rewriteImports Samples.createSourceFile Samples.defaultImport defaultFileName
  = "import cdk from '@aws-cdk/core';".
Proof.
  repeat split.
  - intros n m [<- | []] H. discriminate H.
  - destruct H as [<- | []]. reflexivity.
  - destruct H as [<- | []]. reflexivity.
Qed.

(** C10, amended: for every source text in which no recognised import of
    ['@aws-cdk/core'] has [Construct] among its recorded symbols, and in
    which no import declaration with a default import only
    ([import lib from 'path']) has a path the rule table rewrites, the two
    versions of [rewriteImports] return the same output. *)
Theorem versions_agree
        (createSourceFile : string -> string -> SourceFile)
        (sourceText fileName : string) :
  (forall n m,
      In n (statements (createSourceFile fileName sourceText)) ->
      getModuleSpecifier n = Some m -> relocatesConstruct m = false) ->
  (forall n path,
      In n (statements (createSourceFile fileName sourceText)) ->
      defaultOnlyPath n = Some path -> updatedLocationOf path = None) ->
  V1.rewriteImports createSourceFile sourceText fileName =
  rewriteImports createSourceFile sourceText fileName.
Proof.
  intros Hc Hd.
  rewrite rewriteImports_phases, planFor_importInsertions.
  rewrite (plannedInsertion_none sourceText _ Hc).
  unfold insertedLines. simpl.
  unfold V1.rewriteImports, V1.rewriteParsed, V1.visitStatements.
  rewrite v1_applyReplacements, v1_sortReplacements.
  rewrite (v1_fold_replacements _ _ Hd). simpl.
  unfold editsFor. now rewrite planFor_replacements.
Qed.

Lemma versions_agree_witness :
  V1.rewriteImports Samples.createSourceFile Samples.assertDiffIam defaultFileName =
  rewriteImports Samples.createSourceFile Samples.assertDiffIam defaultFileName.
Proof.
  apply (versions_agree Samples.createSourceFile Samples.assertDiffIam defaultFileName).
  - intros n m H G. simpl in H.
    destruct H as [<- | [<- | [<- | []]]]; injection G as <-; reflexivity.
  - intros n path H G. simpl in H.
    destruct H as [<- | [<- | [<- | []]]]; discriminate G.
Defined.

(** ** Rewriting a second time *)

Lemma plannedReplacement_origin (stmts : list Node) (r : Replacement) :
  In r (flat_map plannedReplacement stmts) ->
  exists n m,
    In n stmts /\ getModuleSpecifier n = Some m /\
    original r = module m /\
    updatedLocationOf (text (module m)) = Some (updatedLocation r).
Proof.
  intros H. apply in_flat_map in H. destruct H as [n [Hn H]].
  unfold plannedReplacement in H.
  destruct (getModuleSpecifier n) as [m|] eqn:G; [|destruct H].
  destruct (updatedLocationOf (text (module m))) eqn:U; [|destruct H].
  destruct H as [<- | []]. exists n, m. now repeat split.
Qed.

(** Replacing what lies between the delimiters by itself changes nothing. *)
Lemma applyReplacement_same (t : string) (r : Replacement) :
  inBounds t (original r) ->
  JS.substring t (getStart (original r) + 1) (getEnd (original r) - 1)
  = updatedLocation r ->
  applyReplacement t r = t.
Proof.
  intros [B1 B2] H. rewrite applyReplacement_eq, <- H.
  symmetry. apply split3. lia.
Qed.

Lemma applyReplacements_same (rs : list Replacement) (t : string) :
  Forall (fun r => applyReplacement t r = t) rs ->
  applyReplacements rs t = t.
Proof.
  unfold applyReplacements.
  induction 1 as [|r rs H _ IH]; simpl; [reflexivity|]. now rewrite H.
Qed.

(** X19: no path the rule table produces is rewritten again into
    something else: given a path it produced, the rule table returns
    nothing or that same path; and no path it produces is the root
    aggregator ['@aws-cdk/core']. *)
Theorem updatedLocationOf_closed (p q : string) :
  updatedLocationOf p = Some q ->
  q <> "@aws-cdk/core" /\
  (updatedLocationOf q = None \/ updatedLocationOf q = Some q).
Proof.
  unfold updatedLocationOf at 1.
  destruct (negb (JS.startsWith p "@aws-cdk/") || JS.has EXEMPTIONS p);
    [discriminate|].
  destruct (p =? "@aws-cdk/core");
    [intros H; injection H as <-; split; [discriminate | left; reflexivity]|].
  destruct (p =? "@aws-cdk/assert");
    [intros H; injection H as <-; split; [discriminate | right; reflexivity]|].
  destruct (p =? "@aws-cdk/assert/jest");
    [intros H; injection H as <-; split; [discriminate | right; reflexivity]|].
  intros H; injection H as <-. split; [discriminate | left; reflexivity].
Qed.

Lemma updatedLocationOf_closed_witness :
  "aws-cdk-lib/aws-iam" <> "@aws-cdk/core" /\
  (updatedLocationOf "aws-cdk-lib/aws-iam" = None \/
   updatedLocationOf "aws-cdk-lib/aws-iam" = Some "aws-cdk-lib/aws-iam").
Proof.
  apply (updatedLocationOf_closed "@aws-cdk/aws-iam" "aws-cdk-lib/aws-iam").
  reflexivity.
Defined.

(** A text in which every recognised literal is settled is rewritten into
    itself. *)
Lemma settled_text_unchanged
      (createSourceFile : string -> string -> SourceFile)
      (sourceText fileName : string) :
  (forall n m,
      In n (statements (createSourceFile fileName sourceText)) ->
      getModuleSpecifier n = Some m -> settled sourceText (module m)) ->
  rewriteImports createSourceFile sourceText fileName = sourceText.
Proof.
  intros H.
  rewrite rewriteImports_phases, planFor_importInsertions.
  rewrite plannedInsertion_none.
  - unfold insertedLines. simpl. apply applyReplacements_same.
    unfold editsFor. rewrite <- sortReplacements_perm, planFor_replacements.
    rewrite Forall_forall. intros r Hr.
    apply plannedReplacement_origin in Hr.
    destruct Hr as [n [m [Hn [Hm [Ho Hu]]]]].
    destruct (H n m Hn Hm) as [S | [S [B R]]]; [congruence|].
    rewrite S in Hu. injection Hu as Hu.
    apply applyReplacement_same; rewrite Ho; [exact B | now rewrite R].
  - intros n m Hn Hm.
    destruct (relocatesConstruct m) eqn:R; [|reflexivity].
    apply relocatesConstruct_iff in R. destruct R as [R _].
    destruct (H n m Hn Hm) as [S | [S _]]; rewrite R in S; discriminate S.
Qed.

(** C3: the code breaks idempotence.  The replacement loop writes the
    value of the literal, escapes resolved, between the quotes without
    escaping it again.  A path with escaped quotes thus comes back with
    bare quotes, the rewritten text holds a second import, of
    ['@aws-cdk/core'], and rewriting it once more changes it. *)
Lemma rewriteImports_not_idempotent :
  rewriteImports Samples.createSourceFile Samples.escapedQuotes defaultFileName
  = Samples.escapedQuotesRewritten /\
  rewriteImports Samples.createSourceFile Samples.escapedQuotesRewritten defaultFileName
  = "import 'aws-cdk-lib/a';import 'aws-cdk-lib';//'" /\
  rewriteImports Samples.createSourceFile
    (rewriteImports Samples.createSourceFile Samples.escapedQuotes defaultFileName)
    defaultFileName
  <> rewriteImports Samples.createSourceFile Samples.escapedQuotes defaultFileName.
Proof.
  repeat split. intros H. vm_compute in H. discriminate H.
Qed.

(** * Further properties of the code *)

(** ** The shell conditional *)

Lemma concat_cons (x : string) (xs : list string) :
  String.concat "" (x :: xs) = x ++ String.concat "" xs.
Proof. destruct xs; simpl; [now rewrite append_nil_r | reflexivity]. Qed.

Lemma fold_appendStatement (statements : list string) (acc : string) :
  fold_left appendStatement statements acc = acc ++ branchText statements.
Proof.
  unfold branchText. revert acc.
  induction statements as [|x statements IH]; intros acc.
  - simpl. now rewrite append_nil_r.
  - cbn [fold_left map]. rewrite IH, concat_cons. unfold appendStatement.
    now rewrite !append_assoc.
Qed.

Lemma append_inj_l (a x y : string) : a ++ x = a ++ y -> x = y.
Proof.
  induction a as [|c a IH]; simpl; intros H; [exact H|].
  injection H as H. now apply IH.
Qed.

(** X1: the conditional built by [ifElse] is [if <condition>; then], every
    statement of the first branch preceded by a space and followed by a
    semicolon, then, when a second branch is given, [ else] and its
    statements in the same way, and [ fi] at the end. *)
Theorem ifElse_closed_form (options : ifElseOptions) :
  ifElse options =
  "if " ++ condition options ++ "; then" ++
  branchText (thenStatements options) ++
  match elseStatements options with
  | Some statements => " else" ++ branchText statements
  | None => ""
  end ++ " fi".
Proof.
  unfold ifElse. destruct (elseStatements options) as [statements|].
  - rewrite !fold_appendStatement. now rewrite !append_assoc.
  - rewrite fold_appendStatement. now rewrite !append_assoc.
Qed.

(** X2: an empty array of else statements is not the same as none: the
    conditional then has an [else] with nothing after it, where without
    else statements it has no [else] at all. *)
Theorem ifElse_empty_else_kept (cond : string) (statements : list string) :
  ifElse {| condition := cond; thenStatements := statements;
            elseStatements := Some [] |}
  = "if " ++ cond ++ "; then" ++ branchText statements ++ " else fi" /\
  ifElse {| condition := cond; thenStatements := statements;
            elseStatements := None |}
  = "if " ++ cond ++ "; then" ++ branchText statements ++ " fi" /\
  ifElse {| condition := cond; thenStatements := statements;
            elseStatements := Some [] |}
  <> ifElse {| condition := cond; thenStatements := statements;
               elseStatements := None |}.
Proof.
  assert (E1 : ifElse {| condition := cond; thenStatements := statements;
                         elseStatements := Some [] |}
               = "if " ++ cond ++ "; then" ++ branchText statements ++ " else fi").
  { unfold ifElse. cbn [elseStatements thenStatements condition fold_left].
    rewrite fold_appendStatement. now rewrite !append_assoc. }
  assert (E2 : ifElse {| condition := cond; thenStatements := statements;
                         elseStatements := None |}
               = "if " ++ cond ++ "; then" ++ branchText statements ++ " fi").
  { unfold ifElse. cbn [elseStatements thenStatements condition].
    rewrite fold_appendStatement. now rewrite !append_assoc. }
  split; [exact E1|]. split; [exact E2|].
  rewrite E1, E2. intros H.
  apply (append_inj_l "if ") in H. apply append_inj_l in H.
  apply (append_inj_l "; then") in H. apply append_inj_l in H.
  discriminate H.
Qed.

(** ** The release configuration script *)

Lemma stringIncludes_iff (s part : string) :
  stringIncludes s part = true <-> exists a b, s = a ++ part ++ b.
Proof.
  split.
  - induction s as [|c s IH]; simpl; rewrite orb_true_iff.
    + intros [H | H]; [|discriminate H].
      apply (startsWith_iff "" part) in H. destruct H as [b H].
      exists "", b. exact H.
    + intros [H | H].
      * apply (startsWith_iff (String c s) part) in H. destruct H as [b H].
        exists "", b. exact H.
      * destruct (IH H) as [a [b E]]. exists (String c a), b. simpl. now rewrite E.
  - intros [a [b ->]]. induction a as [|c a IH].
    + simpl. generalize (startsWith_app part b). unfold JS.startsWith.
      generalize (part ++ b) as t. intros t P.
      destruct t; cbn [stringIncludes]; rewrite P; reflexivity.
    + simpl. rewrite IH. apply orb_true_r.
Qed.

Section ScriptFacts.

Variable repoRoot : string.
Variable join : string -> string -> string.
Variable existsSync : string -> bool.
Variable requireVersion : string -> string.

(** Every way the script can end, by the checks it makes in order. *)
Lemma script_cases (env : VersionRc.Env) :
  (exists message stderr,
      VersionRc.script repoRoot join existsSync requireVersion env =
      {| VersionRc.stderr := stderr;
         VersionRc.outcome := VersionRc.Threw message |}) \/
  exists majorVersion releaseType,
    VersionRc.CDK_MAJOR_VERSION env = Some majorVersion /\
    (majorVersion = "1" \/ majorVersion = "2") /\
    VersionRc.CDK_RELEASE_TYPE env = Some releaseType /\
    In releaseType VersionRc.ALLOWED_RELEASE_TYPES /\
    existsSync (join repoRoot ("version.v" ++ majorVersion ++ ".json")) = true /\
    (if releaseType =? "stable"
     then stringIncludes
            (requireVersion (join repoRoot ("version.v" ++ majorVersion ++ ".json")))
            "-" = false
     else stringIncludes
            (requireVersion (join repoRoot ("version.v" ++ majorVersion ++ ".json")))
            ("-" ++ releaseType ++ ".") = true) /\
    VersionRc.script repoRoot join existsSync requireVersion env =
      {| VersionRc.stderr :=
           ["current version: " ++
            requireVersion (join repoRoot ("version.v" ++ majorVersion ++ ".json"))];
         VersionRc.outcome :=
           VersionRc.Exported
             {| VersionRc.version :=
                  requireVersion (join repoRoot ("version.v" ++ majorVersion ++ ".json"));
                VersionRc.versionFile := "version.v" ++ majorVersion ++ ".json";
                VersionRc.changelogFile :=
                  if majorVersion =? "1" then "CHANGELOG.md"
                  else "CHANGELOG.v" ++ majorVersion ++ ".md";
                VersionRc.prerelease :=
                  if negb (releaseType =? "stable") then Some releaseType else None;
                VersionRc.marker := "0.0.0" |} |}.
Proof.
  unfold VersionRc.script.
  destruct (VersionRc.CDK_MAJOR_VERSION env) as [majorVersion|];
    [|left; eauto].
  destruct (VersionRc.isFalsy (Some majorVersion)); [left; eauto|].
  assert (M : negb (majorVersion =? "1") && negb (majorVersion =? "2") = false ->
              majorVersion = "1" \/ majorVersion = "2").
  { destruct (String.eqb_spec majorVersion "1"); [now left|].
    destruct (String.eqb_spec majorVersion "2"); [now right | discriminate]. }
  destruct (negb (majorVersion =? "1") && negb (majorVersion =? "2"));
    [left; eauto|].
  specialize (M eq_refl).
  destruct (VersionRc.CDK_RELEASE_TYPE env) as [releaseType|];
    [|left; eauto].
  destruct (VersionRc.isFalsy (Some releaseType)); [left; eauto|].
  destruct (JS.includes VersionRc.ALLOWED_RELEASE_TYPES releaseType) eqn:A;
    cbn [negb]; [|left; eauto].
  apply includes_In in A.
  destruct (existsSync (join repoRoot ("version.v" ++ majorVersion ++ ".json")))
    eqn:X; cbn [negb]; [|left; eauto].
  destruct (releaseType =? "stable") eqn:S; cbn [negb andb].
  - destruct (stringIncludes _ "-") eqn:I; [left; eauto|].
    right. exists majorVersion, releaseType. rewrite S. tauto.
  - destruct (stringIncludes _ ("-" ++ releaseType ++ ".")) eqn:I;
      cbn [negb]; [|left; eauto].
    right. exists majorVersion, releaseType. rewrite S. tauto.
Qed.

(** X3: the script exports a configuration exactly when the major version
    is [1] or [2], the release type is [alpha], [rc] or [stable], the
    version file of that major version exists, and its version carries
    no hyphen for a stable release, or the tag [-<release type>.] for a
    pre-release. *)
Theorem script_exports_iff (env : VersionRc.Env) :
  (exists exports,
      VersionRc.outcome (VersionRc.script repoRoot join existsSync requireVersion env)
      = VersionRc.Exported exports) <->
  exists majorVersion releaseType,
    VersionRc.CDK_MAJOR_VERSION env = Some majorVersion /\
    (majorVersion = "1" \/ majorVersion = "2") /\
    VersionRc.CDK_RELEASE_TYPE env = Some releaseType /\
    (releaseType = "alpha" \/ releaseType = "rc" \/ releaseType = "stable") /\
    existsSync (join repoRoot ("version.v" ++ majorVersion ++ ".json")) = true /\
    (releaseType = "stable" ->
     forall a b,
       requireVersion (join repoRoot ("version.v" ++ majorVersion ++ ".json"))
       <> a ++ "-" ++ b) /\
    (releaseType <> "stable" ->
     exists a b,
       requireVersion (join repoRoot ("version.v" ++ majorVersion ++ ".json"))
       = a ++ "-" ++ releaseType ++ "." ++ b).
Proof.
  split.
  - intros [exports H].
    destruct (script_cases env) as [[message [log E]] | C].
    { rewrite E in H. discriminate H. }
    destruct C as [majorVersion [releaseType [M [M' [R [A [X [I _]]]]]]]].
    exists majorVersion, releaseType.
    repeat split; try assumption.
    + simpl in A. destruct A as [<- | [<- | [<- | []]]]; tauto.
    + intros -> a b E. rewrite String.eqb_refl in I.
      assert (T : stringIncludes
                    (requireVersion
                       (join repoRoot ("version.v" ++ majorVersion ++ ".json")))
                    "-" = true)
        by (apply stringIncludes_iff; now exists a, b).
      congruence.
    + intros N. apply String.eqb_neq in N. rewrite N in I.
      apply stringIncludes_iff in I. destruct I as [a [b I]].
      exists a, b. rewrite I. now rewrite !append_assoc.
  - intros [majorVersion [releaseType [M [M' [R [A [X [S P]]]]]]]].
    unfold VersionRc.script. rewrite M, R.
    assert (F1 : VersionRc.isFalsy (Some majorVersion) = false)
      by (destruct M' as [-> | ->]; reflexivity).
    assert (F2 : negb (majorVersion =? "1") && negb (majorVersion =? "2") = false)
      by (destruct M' as [-> | ->]; reflexivity).
    assert (F3 : VersionRc.isFalsy (Some releaseType) = false)
      by (destruct A as [-> | [-> | ->]]; reflexivity).
    assert (F4 : JS.includes VersionRc.ALLOWED_RELEASE_TYPES releaseType = true)
      by (destruct A as [-> | [-> | ->]]; reflexivity).
    rewrite F1, F2, F3, F4, X. cbn [negb].
    destruct (String.eqb_spec releaseType "stable") as [Es | Ns]; cbn [negb andb].
    + destruct (stringIncludes _ "-") eqn:I.
      * apply stringIncludes_iff in I. destruct I as [a [b I]].
        elim (S Es a b). exact I.
      * eexists. reflexivity.
    + destruct (P Ns) as [a [b I]].
      assert (T : stringIncludes
                    (requireVersion
                       (join repoRoot ("version.v" ++ majorVersion ++ ".json")))
                    ("-" ++ releaseType ++ ".") = true).
      { apply stringIncludes_iff. exists a, b. rewrite I.
        now rewrite !append_assoc. }
      rewrite T. cbn [negb]. eexists. reflexivity.
Qed.

(** X4: when the script exports a configuration, the version file is
    [version.v1.json] with changelog [CHANGELOG.md] or [version.v2.json]
    with changelog [CHANGELOG.v2.md], according to the major version; the
    file exists, the exported version is the one read from it, the marker
    is [0.0.0], and the one line written to the error stream is the
    current version. *)
Theorem script_exports_files
        (env : VersionRc.Env) (log : list string) (exports : VersionRc.Exports) :
  VersionRc.script repoRoot join existsSync requireVersion env =
  {| VersionRc.stderr := log;
     VersionRc.outcome := VersionRc.Exported exports |} ->
  (VersionRc.CDK_MAJOR_VERSION env = Some "1" /\
   VersionRc.versionFile exports = "version.v1.json" /\
   VersionRc.changelogFile exports = "CHANGELOG.md" \/
   VersionRc.CDK_MAJOR_VERSION env = Some "2" /\
   VersionRc.versionFile exports = "version.v2.json" /\
   VersionRc.changelogFile exports = "CHANGELOG.v2.md") /\
  existsSync (join repoRoot (VersionRc.versionFile exports)) = true /\
  VersionRc.version exports
  = requireVersion (join repoRoot (VersionRc.versionFile exports)) /\
  VersionRc.marker exports = "0.0.0" /\
  log = ["current version: " ++ VersionRc.version exports].
Proof.
  intros H.
  destruct (script_cases env) as [[message [log' E]] | C].
  { rewrite E in H. discriminate H. }
  destruct C as [majorVersion [releaseType [M [M' [R [A [X [I E]]]]]]]].
  rewrite E in H. injection H as <- <-.
  cbn [VersionRc.versionFile VersionRc.changelogFile VersionRc.version
       VersionRc.marker].
  repeat split; try assumption; try reflexivity.
  destruct M' as [-> | ->]; [left | right]; repeat split; assumption.
Qed.

(** X5: the exported pre-release tag agrees with the exported version: no
    tag goes with a stable release whose version has no hyphen in it; a
    tag is [alpha] or [rc], is the release type asked for, and the
    version contains [-<tag>.]. *)
Theorem script_prerelease_tag_in_version
        (env : VersionRc.Env) (exports : VersionRc.Exports) :
  VersionRc.outcome (VersionRc.script repoRoot join existsSync requireVersion env)
  = VersionRc.Exported exports ->
  match VersionRc.prerelease exports with
  | None =>
      VersionRc.CDK_RELEASE_TYPE env = Some "stable" /\
      forall a b, VersionRc.version exports <> a ++ "-" ++ b
  | Some tag =>
      VersionRc.CDK_RELEASE_TYPE env = Some tag /\
      (tag = "alpha" \/ tag = "rc") /\
      exists a b, VersionRc.version exports = a ++ "-" ++ tag ++ "." ++ b
  end.
Proof.
  intros H.
  destruct (script_cases env) as [[message [log' E]] | C].
  { rewrite E in H. discriminate H. }
  destruct C as [majorVersion [releaseType [M [M' [R [A [X [I E]]]]]]]].
  rewrite E in H. injection H as <-.
  cbn [VersionRc.prerelease VersionRc.version].
  revert I.
  destruct (String.eqb_spec releaseType "stable") as [-> | N]; cbn [negb];
    intros I.
  - split; [exact R|]. intros a b V.
    assert (T : stringIncludes
                  (requireVersion
                     (join repoRoot ("version.v" ++ majorVersion ++ ".json")))
                  "-" = true)
      by (apply stringIncludes_iff; now exists a, b).
    congruence.
  - split; [exact R|]. split.
    + simpl in A. destruct A as [A | [A | [A | []]]]; subst; tauto.
    + apply stringIncludes_iff in I. destruct I as [a [b I]].
      exists a, b. etransitivity; [exact I|]. now rewrite !append_assoc.
Qed.

End ScriptFacts.

Lemma script_exports_files_witness :
  (VersionRc.CDK_MAJOR_VERSION
     {| VersionRc.CDK_MAJOR_VERSION := Some "2";
        VersionRc.CDK_RELEASE_TYPE := Some "rc" |} = Some "1" /\
   "version.v2.json" = "version.v1.json" /\ "CHANGELOG.v2.md" = "CHANGELOG.md" \/
   VersionRc.CDK_MAJOR_VERSION
     {| VersionRc.CDK_MAJOR_VERSION := Some "2";
        VersionRc.CDK_RELEASE_TYPE := Some "rc" |} = Some "2" /\
   "version.v2.json" = "version.v2.json" /\ "CHANGELOG.v2.md" = "CHANGELOG.v2.md") /\
  ("/repo" ++ "/" ++ "version.v2.json" =? "/repo/version.v2.json") = true /\
  "2.0.0-rc.1" = "2.0.0-rc.1" /\
  "0.0.0" = "0.0.0" /\
  ["current version: 2.0.0-rc.1"] = ["current version: " ++ "2.0.0-rc.1"].
Proof.
  apply (script_exports_files
           "/repo" (fun a b => a ++ "/" ++ b)
           (fun p => p =? "/repo/version.v2.json") (fun _ => "2.0.0-rc.1")
           {| VersionRc.CDK_MAJOR_VERSION := Some "2";
              VersionRc.CDK_RELEASE_TYPE := Some "rc" |}
           ["current version: 2.0.0-rc.1"]
           {| VersionRc.version := "2.0.0-rc.1";
              VersionRc.versionFile := "version.v2.json";
              VersionRc.changelogFile := "CHANGELOG.v2.md";
              VersionRc.prerelease := Some "rc";
              VersionRc.marker := "0.0.0" |}).
  reflexivity.
Defined.

Lemma script_prerelease_tag_in_version_witness :
  VersionRc.CDK_RELEASE_TYPE
    {| VersionRc.CDK_MAJOR_VERSION := Some "2";
       VersionRc.CDK_RELEASE_TYPE := Some "rc" |} = Some "rc" /\
  ("rc" = "alpha" \/ "rc" = "rc") /\
  exists a b, "2.0.0-rc.1" = a ++ "-" ++ "rc" ++ "." ++ b.
Proof.
  apply (script_prerelease_tag_in_version
           "/repo" (fun a b => a ++ "/" ++ b)
           (fun p => p =? "/repo/version.v2.json") (fun _ => "2.0.0-rc.1")
           {| VersionRc.CDK_MAJOR_VERSION := Some "2";
              VersionRc.CDK_RELEASE_TYPE := Some "rc" |}
           {| VersionRc.version := "2.0.0-rc.1";
              VersionRc.versionFile := "version.v2.json";
              VersionRc.changelogFile := "CHANGELOG.v2.md";
              VersionRc.prerelease := Some "rc";
              VersionRc.marker := "0.0.0" |}).
  reflexivity.
Defined.

(** X6: when the major version is not [1] or [2], or the release type is
    not an allowed one, the script throws without writing to the error
    stream, and it ends in the same way whatever the file system holds:
    the version file is not looked at. *)
Theorem script_invalid_environment_ignores_files
        (repoRoot repoRoot' : string) (join join' : string -> string -> string)
        (existsSync existsSync' : string -> bool)
        (requireVersion requireVersion' : string -> string)
        (env : VersionRc.Env) :
  ~ (exists majorVersion releaseType,
        VersionRc.CDK_MAJOR_VERSION env = Some majorVersion /\
        (majorVersion = "1" \/ majorVersion = "2") /\
        VersionRc.CDK_RELEASE_TYPE env = Some releaseType /\
        In releaseType VersionRc.ALLOWED_RELEASE_TYPES) ->
  VersionRc.script repoRoot join existsSync requireVersion env =
  VersionRc.script repoRoot' join' existsSync' requireVersion' env /\
  VersionRc.stderr (VersionRc.script repoRoot join existsSync requireVersion env) = [] /\
  exists message,
    VersionRc.outcome (VersionRc.script repoRoot join existsSync requireVersion env)
    = VersionRc.Threw message.
Proof.
  intros H. unfold VersionRc.script.
  destruct (VersionRc.CDK_MAJOR_VERSION env) as [majorVersion|] eqn:M;
    [|split; [reflexivity | split; [reflexivity | eexists; reflexivity]]].
  destruct (VersionRc.isFalsy (Some majorVersion)); [split; [reflexivity | split; [reflexivity | eexists; reflexivity]]|].
  assert (M' : negb (majorVersion =? "1") && negb (majorVersion =? "2") = false ->
               majorVersion = "1" \/ majorVersion = "2").
  { destruct (String.eqb_spec majorVersion "1"); [now left|].
    destruct (String.eqb_spec majorVersion "2"); [now right | discriminate]. }
  destruct (negb (majorVersion =? "1") && negb (majorVersion =? "2"));
    [split; [reflexivity | split; [reflexivity | eexists; reflexivity]]|].
  specialize (M' eq_refl).
  destruct (VersionRc.CDK_RELEASE_TYPE env) as [releaseType|] eqn:R;
    [|split; [reflexivity | split; [reflexivity | eexists; reflexivity]]].
  destruct (VersionRc.isFalsy (Some releaseType)); [split; [reflexivity | split; [reflexivity | eexists; reflexivity]]|].
  destruct (JS.includes VersionRc.ALLOWED_RELEASE_TYPES releaseType) eqn:A;
    cbn [negb]; [|split; [reflexivity | split; [reflexivity | eexists; reflexivity]]].
  apply includes_In in A. elim H. exists majorVersion, releaseType. tauto.
Qed.

Lemma script_invalid_environment_ignores_files_witness :
  VersionRc.script "/repo" (fun a b => a ++ "/" ++ b) (fun _ => true)
                   (fun _ => "1.0.0")
                   {| VersionRc.CDK_MAJOR_VERSION := Some "3";
                      VersionRc.CDK_RELEASE_TYPE := Some "stable" |} =
  VersionRc.script "/elsewhere" (fun a b => b) (fun _ => false)
                   (fun _ => "")
                   {| VersionRc.CDK_MAJOR_VERSION := Some "3";
                      VersionRc.CDK_RELEASE_TYPE := Some "stable" |} /\
  VersionRc.stderr
    (VersionRc.script "/repo" (fun a b => a ++ "/" ++ b) (fun _ => true)
                      (fun _ => "1.0.0")
                      {| VersionRc.CDK_MAJOR_VERSION := Some "3";
                         VersionRc.CDK_RELEASE_TYPE := Some "stable" |}) = [] /\
  exists message,
    VersionRc.outcome
      (VersionRc.script "/repo" (fun a b => a ++ "/" ++ b) (fun _ => true)
                        (fun _ => "1.0.0")
                        {| VersionRc.CDK_MAJOR_VERSION := Some "3";
                           VersionRc.CDK_RELEASE_TYPE := Some "stable" |})
    = VersionRc.Threw message.
Proof.
  apply (script_invalid_environment_ignores_files
           "/repo" "/elsewhere" (fun a b => a ++ "/" ++ b) (fun a b => b)
           (fun _ => true) (fun _ => false) (fun _ => "1.0.0") (fun _ => "")
           {| VersionRc.CDK_MAJOR_VERSION := Some "3";
              VersionRc.CDK_RELEASE_TYPE := Some "stable" |}).
  intros [majorVersion [releaseType [M [[-> | ->] _]]]]; discriminate M.
Defined.

(** ** Indentation and the inserted lines *)

Lemma takeWhile_dropWhile (p : ascii -> bool) (s : string) :
  takeWhile p s ++ dropWhile p s = s.
Proof.
  induction s as [|c s IH]; simpl; [reflexivity|].
  destruct (p c); simpl; [now rewrite IH | reflexivity].
Qed.

Lemma forallChars_takeWhile (p : ascii -> bool) (s : string) :
  forallChars p (takeWhile p s) = true.
Proof.
  induction s as [|c s IH]; simpl; [reflexivity|].
  destruct (p c) eqn:E; simpl; [now rewrite E | reflexivity].
Qed.

Lemma dropWhile_head (p : ascii -> bool) (s : string) :
  match dropWhile p s with
  | String c _ => p c = false
  | EmptyString => True
  end.
Proof.
  induction s as [|c s IH]; simpl; [exact I|].
  destruct (p c) eqn:E; [exact IH | exact E].
Qed.

Lemma getIndent_eq (sourceText : string) (node : Node) :
  getIndent sourceText node =
  takeWhile isTabOrSpace
    (dropWhile isLineBreak (JS.substring sourceText (pos node) (getEnd node))).
Proof.
  unfold getIndent, wsRe_exec.
  now destruct (takeWhile isTabOrSpace
                  (dropWhile isLineBreak
                     (JS.substring sourceText (pos node) (getEnd node)))).
Qed.

(** X7: the text of a statement, from [pos] to [end], is made of line
    breaks, then the indentation [getIndent] returns, which holds tabs
    and spaces only, then a rest that does not start with a tab or a
    space; when the indentation is empty, the rest does not start with a
    line break either. *)
Theorem getIndent_shape (sourceText : string) (node : Node) :
  exists breaks rest,
    JS.substring sourceText (pos node) (getEnd node)
    = breaks ++ getIndent sourceText node ++ rest /\
    forallChars isLineBreak breaks = true /\
    forallChars isTabOrSpace (getIndent sourceText node) = true /\
    match rest with
    | String c _ =>
        isTabOrSpace c = false /\
        (getIndent sourceText node = "" -> isLineBreak c = false)
    | EmptyString => True
    end.
Proof.
  rewrite getIndent_eq.
  set (t := JS.substring sourceText (pos node) (getEnd node)).
  exists (takeWhile isLineBreak t),
         (dropWhile isTabOrSpace (dropWhile isLineBreak t)).
  split; [now rewrite !takeWhile_dropWhile|].
  split; [apply forallChars_takeWhile|].
  split; [apply forallChars_takeWhile|].
  pose proof (dropWhile_head isTabOrSpace (dropWhile isLineBreak t)) as H.
  destruct (dropWhile isTabOrSpace (dropWhile isLineBreak t)) as [|c rest] eqn:D;
    [exact I|].
  split; [exact H|]. intros E.
  pose proof (takeWhile_dropWhile isTabOrSpace (dropWhile isLineBreak t)) as T.
  rewrite E, D in T. simpl in T.
  pose proof (dropWhile_head isLineBreak t) as B. rewrite <- T in B. exact B.
Qed.

(** X8: every line the rewriter inserts is the import of [Construct] from
    ['constructs'] preceded by tabs and spaces only, and there are as
    many inserted lines as statements recognised as an import of
    ['@aws-cdk/core'] with [Construct] among its symbols. *)
Theorem inserted_lines_shape
        (createSourceFile : string -> string -> SourceFile)
        (sourceText fileName : string) :
  Forall
    (fun line =>
       exists indent,
         line = indent ++ constructImport /\
         forallChars isTabOrSpace indent = true)
    (importInsertions (planFor createSourceFile sourceText fileName)) /\
  List.length (importInsertions (planFor createSourceFile sourceText fileName)) =
  List.length
    (filter
       (fun node =>
          match getModuleSpecifier node with
          | Some m => relocatesConstruct m
          | None => false
          end)
       (statements (createSourceFile fileName sourceText))).
Proof.
  rewrite planFor_importInsertions.
  induction (statements (createSourceFile fileName sourceText)) as [|n stmts [IH1 IH2]];
    simpl; [split; [constructor | reflexivity]|].
  unfold plannedInsertion at 1 3.
  destruct (getModuleSpecifier n) as [m|]; [|split; assumption].
  destruct (relocatesConstruct m); simpl; [|split; assumption].
  split; [|now rewrite IH2].
  constructor; [|exact IH1].
  exists (getIndent sourceText n). split; [reflexivity|].
  rewrite getIndent_eq. apply forallChars_takeWhile.
Qed.

(** ** What the matcher returns *)

Lemma getModuleSpecifier_call
      (p s e : nat) (callee : Node) (args : list Node) (m : ModuleSpecifier) :
  getModuleSpecifier (mkNode p s e (CallExpression callee args)) = Some m ->
  isRequireIdentifier callee = true /\
  args = [module m] /\
  isStringLiteral (module m) = true /\ type m = none /\ symbols m = None.
Proof.
  simpl. destruct (isRequireIdentifier callee); [|discriminate].
  destruct args as [|a [|b args]]; simpl; try discriminate.
  destruct (isStringLiteral a) eqn:L; [|discriminate].
  intros H. injection H as <-. simpl. now repeat split.
Qed.

(** X9: what the later matcher returns is always a string literal, and
    the symbols go with the type: none for type [none]; for type
    [namespace], the statement is an import declaration with a namespace
    import and the symbols are its one alias; for type [named], the
    statement is an import declaration with named imports and the
    symbols are the declared names of its elements, in order.  In both
    cases the module is the module specifier of the declaration. *)
Theorem recognised_module_shape (node : Node) (m : ModuleSpecifier) :
  getModuleSpecifier node = Some m ->
  isStringLiteral (module m) = true /\
  match type m with
  | none => symbols m = None
  | namespace =>
      exists p s e default alias,
        node = mkNode p s e
                 (ImportDeclaration
                    (Some {| clauseName := default;
                             namedBindings := Some (NamespaceImport alias) |})
                    (module m)) /\
        symbols m = Some [alias]
  | named =>
      exists p s e default elements,
        node = mkNode p s e
                 (ImportDeclaration
                    (Some {| clauseName := default;
                             namedBindings := Some (NamedImports elements) |})
                    (module m)) /\
        symbols m = Some (map name elements)
  end.
Proof.
  destruct node as [p s e k]. destruct k as
      [t | i | callee args | l r | x | clause spec | n ref | x | ];
    try discriminate.
  - intros H. apply getModuleSpecifier_call in H.
    destruct H as [_ [_ [L [T S]]]]. rewrite T. now split.
  - destruct x as [xp xs xe [ | | callee args | | | | | | ]]; try discriminate.
    intros H. apply (getModuleSpecifier_call xp xs xe) in H.
    destruct H as [_ [_ [L [T S]]]]. rewrite T. now split.
  - destruct spec as [lp ls le [t | | | l r | | | | | ]]; try discriminate.
    + destruct clause as [[default [[elements | alias] | ]] | ]; simpl;
        try discriminate; intros H; injection H as <-; simpl; split;
        try reflexivity.
      * exists p, s, e, default, elements. now split.
      * exists p, s, e, default, alias. now split.
    + destruct r as [rp rs re [ | | callee args | | | | | | ]]; try discriminate.
      intros H. apply (getModuleSpecifier_call rp rs re) in H.
      destruct H as [_ [_ [L [T S]]]]. rewrite T. now split.
  - simpl. destruct (kind ref); try discriminate.
    destruct (isStringLiteral expression) eqn:L; [|discriminate].
    intros H. injection H as <-. simpl. now split.
Qed.

Lemma recognised_module_shape_witness :
  isStringLiteral (Samples.literal 77 78 93 "@aws-cdk/core") = true /\
  exists p s e default elements,
    mkNode 42 45 94
      (ImportDeclaration (Samples.namedClause ["Construct"; "Stack"])
         (Samples.literal 77 78 93 "@aws-cdk/core"))
    = mkNode p s e
        (ImportDeclaration
           (Some {| clauseName := default;
                    namedBindings := Some (NamedImports elements) |})
           (Samples.literal 77 78 93 "@aws-cdk/core")) /\
    Some ["Construct"; "Stack"] = Some (map name elements).
Proof.
  apply (recognised_module_shape
           (mkNode 42 45 94
              (ImportDeclaration (Samples.namedClause ["Construct"; "Stack"])
                 (Samples.literal 77 78 93 "@aws-cdk/core")))
           {| module := Samples.literal 77 78 93 "@aws-cdk/core";
              type := named; symbols := Some ["Construct"; "Stack"] |}).
  reflexivity.
Defined.

(** X10: an insertion is only ever planned for an import declaration
    with named or namespace bindings whose path is the string literal
    ['@aws-cdk/core']; the forms built on [require], imports for side
    effects and default imports never lead to one. *)
Theorem insertion_only_from_bound_imports (sourceText : string) (node : Node) :
  plannedInsertion sourceText node <> [] ->
  exists p s e clause bindings literal,
    node = mkNode p s e (ImportDeclaration (Some clause) literal) /\
    namedBindings clause = Some bindings /\
    isStringLiteral literal = true /\
    text literal = "@aws-cdk/core" /\
    plannedInsertion sourceText node = [getIndent sourceText node ++ constructImport].
Proof.
  unfold plannedInsertion.
  destruct (getModuleSpecifier node) as [m|] eqn:G; [|intros H; now elim H].
  destruct (relocatesConstruct m) eqn:R; [|intros H; now elim H].
  intros _. apply relocatesConstruct_iff in R.
  destruct R as [T [names [S _]]].
  destruct node as [p s e k]. destruct k as
      [t | i | callee args | l r | x | clause spec | n ref | x | ];
    try discriminate G.
  - apply getModuleSpecifier_call in G. destruct G as [_ [_ [_ [_ G]]]].
    congruence.
  - destruct x as [xp xs xe [ | | callee args | | | | | | ]]; try discriminate G.
    apply (getModuleSpecifier_call xp xs xe) in G.
    destruct G as [_ [_ [_ [_ G]]]]. congruence.
  - destruct spec as [lp ls le [t | | | l r | | | | | ]]; try discriminate G.
    + destruct clause as [[default [bindings | ]] | ]; simpl in G.
      * exists p, s, e, {| clauseName := default; namedBindings := Some bindings |},
               bindings, (mkNode lp ls le (StringLiteral t)).
        repeat split.
        destruct bindings; injection G as <-; exact T.
      * discriminate G.
      * injection G as <-. discriminate S.
    + destruct r as [rp rs re [ | | callee args | | | | | | ]]; try discriminate G.
      apply (getModuleSpecifier_call rp rs re) in G.
      destruct G as [_ [_ [_ [_ G]]]]. congruence.
  - simpl in G. destruct (kind ref); try discriminate G.
    destruct (isStringLiteral expression); [|discriminate G].
    injection G as <-. discriminate S.
Qed.

Lemma insertion_only_from_bound_imports_witness :
  exists p s e clause bindings literal,
    Samples.namespaceConstructStatement
    = mkNode p s e (ImportDeclaration (Some clause) literal) /\
    namedBindings clause = Some bindings /\
    isStringLiteral literal = true /\
    text literal = "@aws-cdk/core" /\
    plannedInsertion Samples.namespaceConstruct Samples.namespaceConstructStatement
    = [getIndent Samples.namespaceConstruct Samples.namespaceConstructStatement
       ++ constructImport].
Proof.
  apply (insertion_only_from_bound_imports
           Samples.namespaceConstruct Samples.namespaceConstructStatement).
  discriminate.
Defined.

(** X11: the two matchers agree on every statement except import
    declarations with a default import only: the earlier matcher returns
    the string literal of such a declaration, the later one returns
    nothing. *)
Theorem matchers_differ_on_default_imports_only (node : Node) :
  (defaultOnlyPath node = None ->
   V1.getModuleSpecifier node = option_map module (getModuleSpecifier node)) /\
  (forall path,
      defaultOnlyPath node = Some path ->
      getModuleSpecifier node = None /\
      exists literal,
        V1.getModuleSpecifier node = Some literal /\
        isStringLiteral literal = true /\ text literal = path).
Proof.
  split.
  - intros D. destruct (v1_matcher node) as [E | [literal [_ [_ E]]]];
      [exact E | congruence].
  - intros path. unfold defaultOnlyPath.
    destruct node as [p s e [ | | | | | [[default [bindings | ]] | ] spec | | | ]];
      simpl; try discriminate.
    destruct spec as [lp ls le [t | | | | | | | | ]]; simpl; try discriminate.
    intros H. injection H as <-. split; [reflexivity|].
    exists (mkNode lp ls le (StringLiteral t)). now repeat split.
Qed.

(** ** Sources with nothing to rewrite *)

Lemma v1_recognises_more (node : Node) (m : ModuleSpecifier) :
  getModuleSpecifier node = Some m ->
  V1.getModuleSpecifier node = Some (module m).
Proof.
  intros G. destruct (v1_matcher node) as [E | [literal [_ [E _]]]].
  - now rewrite E, G.
  - congruence.
Qed.

Lemma updatedLocationOf_outside (path : string) :
  JS.startsWith path "@aws-cdk/" = false \/ In path EXEMPTIONS ->
  updatedLocationOf path = None.
Proof.
  intros [H | H]; unfold updatedLocationOf.
  - now rewrite H.
  - apply has_In in H. rewrite H. now rewrite orb_true_r.
Qed.

(** X12: a source in which every path recognised by the earlier matcher
    lies outside the deprecated prefix or is exempted comes back from
    both versions of the rewriter exactly as it went in. *)
Theorem nothing_to_rewrite_unchanged
        (createSourceFile : string -> string -> SourceFile)
        (sourceText fileName : string) :
  (forall n literal,
      In n (statements (createSourceFile fileName sourceText)) ->
      V1.getModuleSpecifier n = Some literal ->
      JS.startsWith (text literal) "@aws-cdk/" = false \/
      In (text literal) EXEMPTIONS) ->
  rewriteImports createSourceFile sourceText fileName = sourceText /\
  V1.rewriteImports createSourceFile sourceText fileName = sourceText.
Proof.
  intros H. split.
  - apply settled_text_unchanged. intros n m Hn G. left.
    apply updatedLocationOf_outside.
    apply (H n (module m) Hn). now apply v1_recognises_more.
  - unfold V1.rewriteImports, V1.rewriteParsed, V1.visitStatements.
    assert (E : forall stmts st,
               (forall n, In n stmts ->
                          In n (statements (createSourceFile fileName sourceText))) ->
               fold_left V1.visitor stmts st = st).
    { induction stmts as [|n stmts IH]; intros st Hs; simpl; [reflexivity|].
      rewrite IH by (intros n' Hn'; apply Hs; now right).
      unfold V1.visitor.
      destruct (V1.getModuleSpecifier n) as [literal|] eqn:G; [|reflexivity].
      rewrite updatedLocationOf_outside; [reflexivity|].
      apply (H n literal); [apply Hs; now left | exact G]. }
    rewrite E by auto. reflexivity.
Qed.

Lemma nothing_to_rewrite_unchanged_witness :
  rewriteImports Samples.createSourceFile Samples.coreNamedRewritten defaultFileName
  = Samples.coreNamedRewritten /\
  V1.rewriteImports Samples.createSourceFile Samples.coreNamedRewritten defaultFileName
  = Samples.coreNamedRewritten.
Proof.
  apply (nothing_to_rewrite_unchanged
           Samples.createSourceFile Samples.coreNamedRewritten defaultFileName).
  intros n literal H G. vm_compute in H.
  destruct H as [<- | [<- | []]]; injection G as <-; left; reflexivity.
Defined.

(** ** The rule table loses nothing *)

Lemma updatedLocationOf_some (p q : string) :
  updatedLocationOf p = Some q ->
  (p = "@aws-cdk/core" /\ q = "aws-cdk-lib") \/
  (p = "@aws-cdk/assert" /\ q = "@aws-cdk/assert") \/
  (p = "@aws-cdk/assert/jest" /\ q = "@aws-cdk/assert/jest") \/
  (exists rest, p = "@aws-cdk/" ++ rest /\ q = "aws-cdk-lib/" ++ rest).
Proof.
  unfold updatedLocationOf.
  destruct (JS.startsWith p "@aws-cdk/") eqn:P; [|discriminate].
  destruct (JS.has EXEMPTIONS p); [discriminate|]. simpl.
  destruct (String.eqb_spec p "@aws-cdk/core");
    [intros H; injection H as <-; now left|].
  destruct (String.eqb_spec p "@aws-cdk/assert");
    [intros H; injection H as <-; right; left; now subst|].
  destruct (String.eqb_spec p "@aws-cdk/assert/jest");
    [intros H; injection H as <-; right; right; left; now subst|].
  intros H. injection H as <-. right. right. right.
  exists (JS.drop 9 p). split; [|reflexivity].
  now apply startsWith_inv in P.
Qed.

(** X13: no two legacy paths are sent to the same new path: from the path
    the rule table gives one can tell the path it was given. *)
Theorem updatedLocationOf_injective (p p' q : string) :
  updatedLocationOf p = Some q ->
  updatedLocationOf p' = Some q ->
  p = p'.
Proof.
  intros H H'.
  apply updatedLocationOf_some in H. apply updatedLocationOf_some in H'.
  destruct H as [[-> ->] | [[-> ->] | [[-> ->] | [rest [-> ->]]]]];
    destruct H' as [[-> E] | [[-> E] | [[-> E] | [rest' [-> E]]]]];
    try reflexivity; try discriminate E.
  apply (append_inj_l "aws-cdk-lib/") in E. now subst.
Qed.

Lemma updatedLocationOf_injective_witness :
  "@aws-cdk/aws-iam" = "@aws-cdk/aws-iam".
Proof.
  apply (updatedLocationOf_injective
           "@aws-cdk/aws-iam" "@aws-cdk/aws-iam" "aws-cdk-lib/aws-iam");
    reflexivity.
Defined.

(** ** The replacement loop as one pass *)

Lemma substring_as_drop_take (t : string) (a b : nat) :
  a <= b -> JS.substring t a b = JS.drop a (JS.take b t).
Proof. intros H. rewrite substring_le by assumption. now rewrite drop_take. Qed.

Lemma drop_app_take (t : string) (n from : nat) (rest : string) :
  from <= n -> n <= String.length t ->
  JS.drop from (JS.take n t ++ rest) = JS.substring t from n ++ rest.
Proof.
  intros H1 H2. rewrite drop_app_le by (rewrite length_take; lia).
  now rewrite substring_as_drop_take.
Qed.

(** Going backwards through the replacements gives, from any offset at
    or before the first replaced literal, what one pass forwards gives. *)
Lemma splice_from (ascending : list Replacement) (from : nat) (t : string) :
  descendingChain (rev ascending) ->
  Forall (fun r => inBounds t (original r)) ascending ->
  match ascending with
  | r :: _ => from <= getStart (original r) + 1
  | [] => True
  end ->
  JS.drop from (applyReplacements (rev ascending) t) = spliceFrom from ascending t.
Proof.
  revert from. induction ascending as [|x rest IH]; intros from C B P.
  - reflexivity.
  - simpl rev in *. apply descendingChain_app in C. destruct C as [Cr [_ X]].
    inversion B as [|? ? [B1 B2] Br]; subst.
    assert (Xr : Forall (fun y => getEnd (original x) <= getStart (original y)) rest).
    { rewrite Forall_forall in *. intros y Hy.
      assert (Hy' : In y (rev rest)) by now apply in_rev in Hy.
      specialize (X y Hy'). now inversion X. }
    rewrite applyReplacements_app.
    set (m := applyReplacements (rev rest) t).
    unfold applyReplacements at 1. simpl. rewrite applyReplacement_eq.
    assert (K : JS.take (getStart (original x) + 1) m
                = JS.take (getStart (original x) + 1) t).
    { apply prefix_kept; [exact Cr | | ].
      - rewrite Forall_forall in *. intros y Hy. apply Br. now apply in_rev.
      - rewrite Forall_forall in *. intros y Hy.
        assert (Hy' : In y rest) by now apply in_rev.
        specialize (Xr y Hy'). cbv beta in Xr. lia. }
    rewrite K, drop_app_take by lia.
    cbn [spliceFrom]. do 2 f_equal.
    apply IH; [exact Cr | exact Br |].
    destruct rest as [|y rest']; [exact I|].
    inversion Xr; subst. lia.
Qed.

(** X14: with the parser's positions in order, the replacement loop,
    which patches the text from the last literal backwards, yields what a
    single pass from the start of the source yields: the source text up
    to and including each opening delimiter, the new path, and the source
    text on from the closing delimiter.  Nothing but what lies between
    the delimiters of the replaced literals is changed. *)
Theorem replacement_loop_is_one_pass
        (createSourceFile : string -> string -> SourceFile)
        (sourceText fileName : string) :
  wellPositioned sourceText (createSourceFile fileName sourceText) ->
  applyReplacements (editsFor createSourceFile sourceText fileName) sourceText =
  spliceFrom 0 (rev (editsFor createSourceFile sourceText fileName)) sourceText /\
  rewriteImports createSourceFile sourceText fileName =
  insertedLines (importInsertions (planFor createSourceFile sourceText fileName)) ++
  spliceFrom 0 (rev (editsFor createSourceFile sourceText fileName)) sourceText.
Proof.
  intros W.
  pose proof (edits_inBounds _ _ _ W) as B.
  pose proof (edits_chain _ _ _ W) as C.
  assert (E : applyReplacements (editsFor createSourceFile sourceText fileName)
                                sourceText =
              spliceFrom 0 (rev (editsFor createSourceFile sourceText fileName))
                         sourceText).
  { rewrite <- (rev_involutive (editsFor createSourceFile sourceText fileName)) at 1.
    rewrite <- (splice_from _ 0).
    - reflexivity.
    - now rewrite rev_involutive.
    - rewrite Forall_forall in *. intros r Hr. apply B. now apply in_rev.
    - destruct (rev (editsFor createSourceFile sourceText fileName));
        [exact I | lia]. }
  split; [exact E|]. rewrite rewriteImports_phases. now rewrite E.
Qed.

Lemma replacement_loop_is_one_pass_witness :
  applyReplacements
    (editsFor Samples.createSourceFile Samples.twoIndents defaultFileName)
    Samples.twoIndents =
  spliceFrom 0
    (rev (editsFor Samples.createSourceFile Samples.twoIndents defaultFileName))
    Samples.twoIndents /\
  rewriteImports Samples.createSourceFile Samples.twoIndents defaultFileName =
  insertedLines
    (importInsertions
       (planFor Samples.createSourceFile Samples.twoIndents defaultFileName)) ++
  spliceFrom 0
    (rev (editsFor Samples.createSourceFile Samples.twoIndents defaultFileName))
    Samples.twoIndents.
Proof.
  apply (replacement_loop_is_one_pass
           Samples.createSourceFile Samples.twoIndents defaultFileName).
  by_positions.
Defined.

(** ** Length of the output *)

Lemma length_applyReplacements (rs : list Replacement) (t : string) :
  descendingChain rs ->
  Forall (fun r => inBounds t (original r)) rs ->
  String.length (applyReplacements rs t) + list_sum (map interiorLength rs) =
  String.length t +
  list_sum (map (fun r => String.length (updatedLocation r)) rs).
Proof.
  revert t. induction rs as [|r rs IH]; intros t C B.
  - simpl. lia.
  - pose proof (inBounds_step t r rs C B) as B'.
    pose proof C as C'. apply StronglySorted_inv in C'. destruct C' as [C' _].
    specialize (IH (applyReplacement t r) C' B').
    inversion B as [|? ? [B1 B2] _]; subst.
    unfold applyReplacements in *. simpl fold_left. simpl map. simpl list_sum.
    rewrite applyReplacement_eq in IH at 2.
    rewrite !length_append, length_take, length_drop in IH.
    unfold interiorLength at 1. lia.
Qed.

Lemma length_insertedLines (insertions : list string) :
  String.length (insertedLines insertions) =
  list_sum (map (fun line => String.length line + 1) insertions).
Proof.
  induction insertions as [|i insertions IH] using rev_ind; [reflexivity|].
  rewrite insertedLines_snoc, map_app, list_sum_app, !length_append, IH.
  simpl. lia.
Qed.

(** X15: with the parser's positions in order, the output is as long as
    the source, plus the lengths of the new paths, less what lay between
    the delimiters of the replaced literals, plus the inserted lines with
    a line feed each. *)
Theorem output_length
        (createSourceFile : string -> string -> SourceFile)
        (sourceText fileName : string) :
  wellPositioned sourceText (createSourceFile fileName sourceText) ->
  String.length (rewriteImports createSourceFile sourceText fileName) +
  list_sum (map interiorLength (editsFor createSourceFile sourceText fileName)) =
  String.length sourceText +
  list_sum (map (fun r => String.length (updatedLocation r))
                (editsFor createSourceFile sourceText fileName)) +
  list_sum (map (fun line => String.length line + 1)
                (importInsertions (planFor createSourceFile sourceText fileName))).
Proof.
  intros W.
  pose proof (length_applyReplacements _ sourceText
                (edits_chain _ _ _ W) (edits_inBounds _ _ _ W)) as L.
  rewrite rewriteImports_phases, length_append, length_insertedLines. lia.
Qed.

Lemma output_length_witness :
  String.length
    (rewriteImports Samples.createSourceFile Samples.twoIndents defaultFileName) +
  list_sum
    (map interiorLength
         (editsFor Samples.createSourceFile Samples.twoIndents defaultFileName)) =
  String.length Samples.twoIndents +
  list_sum
    (map (fun r => String.length (updatedLocation r))
         (editsFor Samples.createSourceFile Samples.twoIndents defaultFileName)) +
  list_sum
    (map (fun line => String.length line + 1)
         (importInsertions
            (planFor Samples.createSourceFile Samples.twoIndents defaultFileName))).
Proof.
  apply (output_length Samples.createSourceFile Samples.twoIndents defaultFileName).
  by_positions.
Defined.

(** ** The later version against the earlier one *)

(** X16: as long as no import declaration with a default import only has
    a path the rule table rewrites, the output of the later version is
    the output of the earlier version with the inserted lines in front:
    apart from the insertions, the two versions make the same edits. *)
Theorem later_output_is_insertions_then_earlier
        (createSourceFile : string -> string -> SourceFile)
        (sourceText fileName : string) :
  (forall n path,
      In n (statements (createSourceFile fileName sourceText)) ->
      defaultOnlyPath n = Some path -> updatedLocationOf path = None) ->
  rewriteImports createSourceFile sourceText fileName =
  insertedLines (importInsertions (planFor createSourceFile sourceText fileName)) ++
  V1.rewriteImports createSourceFile sourceText fileName.
Proof.
  intros Hd. rewrite rewriteImports_phases. f_equal.
  unfold V1.rewriteImports, V1.rewriteParsed, V1.visitStatements.
  rewrite v1_applyReplacements, v1_sortReplacements.
  rewrite (v1_fold_replacements _ _ Hd). simpl.
  unfold editsFor. now rewrite planFor_replacements.
Qed.

Lemma later_output_is_insertions_then_earlier_witness :
  rewriteImports Samples.createSourceFile Samples.twoIndents defaultFileName =
  insertedLines
    (importInsertions
       (planFor Samples.createSourceFile Samples.twoIndents defaultFileName)) ++
  V1.rewriteImports Samples.createSourceFile Samples.twoIndents defaultFileName.
Proof.
  apply (later_output_is_insertions_then_earlier
           Samples.createSourceFile Samples.twoIndents defaultFileName).
  intros n path H G. vm_compute in H.
  destruct H as [<- | [<- | []]]; discriminate G.
Defined.

(** ** The flags of the earlier version *)

Lemma v1_visitor_keeps_flags (st : V1.VisitorState) (node : Node) :
  (forall literal,
      V1.getModuleSpecifier node = Some literal ->
      text literal <> "@aws-cdk/core") ->
  V1.isConstructANamedImport (V1.visitor st node) = V1.isConstructANamedImport st /\
  V1.constructQualifier (V1.visitor st node) = V1.constructQualifier st.
Proof.
  intros H. unfold V1.visitor.
  destruct (V1.getModuleSpecifier node) as [literal|]; [|now split].
  destruct (updatedLocationOf (text literal)); [|now split].
  destruct (String.eqb_spec (text literal) "@aws-cdk/core") as [E | _];
    [|now split].
  now elim (H literal eq_refl).
Qed.

Lemma v1_fold_keeps_flags (stmts : list Node) (st : V1.VisitorState) :
  (forall n literal,
      In n stmts -> V1.getModuleSpecifier n = Some literal ->
      text literal <> "@aws-cdk/core") ->
  V1.isConstructANamedImport (fold_left V1.visitor stmts st)
  = V1.isConstructANamedImport st /\
  V1.constructQualifier (fold_left V1.visitor stmts st) = V1.constructQualifier st.
Proof.
  revert st. induction stmts as [|n stmts IH]; intros st H; simpl; [now split|].
  destruct (IH (V1.visitor st n)) as [I1 I2];
    [intros n' l Hn; apply H; now right|].
  destruct (v1_visitor_keeps_flags st n) as [K1 K2];
    [intros l; apply H; now left|].
  split; congruence.
Qed.

(** X17: in the earlier version the two flags about [Construct] are those
    of the last recognised import of ['@aws-cdk/core']: whether
    [Construct] is among its named imports, and its namespace qualifier;
    what an earlier import of ['@aws-cdk/core'] set is overwritten. *)
Theorem v1_flags_of_last_core_import
        (sourceFile : SourceFile) (before after : list Node)
        (node literal : Node) :
  statements sourceFile = (before ++ node :: after)%list ->
  V1.getModuleSpecifier node = Some literal ->
  text literal = "@aws-cdk/core" ->
  (forall n l,
      In n after -> V1.getModuleSpecifier n = Some l ->
      text l <> "@aws-cdk/core") ->
  V1.isConstructANamedImport (V1.visitStatements sourceFile)
  = existsb (fun name => name =? "Construct") (V1.namedImports node) /\
  V1.constructQualifier (V1.visitStatements sourceFile)
  = V1.importNamespaceQualifier node.
Proof.
  intros Hs Hg Ht Ha. unfold V1.visitStatements.
  rewrite Hs, fold_left_app. simpl.
  destruct (v1_fold_keeps_flags after
              (V1.visitor (fold_left V1.visitor before V1.initialState) node) Ha)
    as [K1 K2].
  rewrite K1, K2. unfold V1.visitor. rewrite Hg, Ht. simpl. now split.
Qed.

Lemma v1_flags_of_last_core_import_witness :
  V1.isConstructANamedImport (V1.visitStatements Samples.namedThenNamespaceTree)
  = existsb (fun name => name =? "Construct")
      (V1.namedImports
         (mkNode 42 43 86
            (ImportDeclaration (Samples.namespaceClause "Construct")
               (Samples.literal 69 70 85 "@aws-cdk/core")))) /\
  V1.constructQualifier (V1.visitStatements Samples.namedThenNamespaceTree)
  = V1.importNamespaceQualifier
      (mkNode 42 43 86
         (ImportDeclaration (Samples.namespaceClause "Construct")
            (Samples.literal 69 70 85 "@aws-cdk/core"))).
Proof.
  apply (v1_flags_of_last_core_import
           Samples.namedThenNamespaceTree
           [mkNode 0 0 42
              (ImportDeclaration (Samples.namedClause ["Construct"])
                 (Samples.literal 25 26 41 "@aws-cdk/core"))]
           []
           (mkNode 42 43 86
              (ImportDeclaration (Samples.namespaceClause "Construct")
                 (Samples.literal 69 70 85 "@aws-cdk/core")))
           (Samples.literal 69 70 85 "@aws-cdk/core")).
  - reflexivity.
  - reflexivity.
  - reflexivity.
  - intros n l [].
Defined.
